(** * Investment goal planner and market analysis: a model of the numeric core

    The development embeds the functions of [Personal_proj.py]
    ([calculate_metrics], [calculate_investment_needs], [get_index_score] and
    the selection [max(index_scores, key=index_scores.get)]) and of
    [script.py] ([calculate_returns], [calculate_volatility],
    [linear_regression_forecast]), and the computation of the callers
    [run_cli_app] and [run_streamlit_app], and states the properties of the
    specification about them, then further properties the code shows.

    Numbers.  The program computes with binary64 values (Python [float],
    [numpy.float64], pandas columns).  They are idealised here: a finite
    value is an exact real number, and the three non-finite values that IEEE
    arithmetic produces ([inf], [-inf], [nan]) are kept, because the
    behaviour on division by zero and on missing data is what several
    properties are about.  Rounding and the sign of zero are not modelled: a
    zero divisor is the positive zero (every zero divisor met in these
    functions is [abs(x)] or a difference [x - x], both [+0.0]).  Of
    overflow, the one that changes the outcome of a call is modelled: a power
    beyond the binary64 range, which Python raises as [OverflowError].
    Statements that are exact here hold of the program up to rounding, which
    is why the general ones are stated on ranges of inputs that keep rounding
    small. *)

From Stdlib Require Import Reals Lra Lia ZArith Bool String List.
Import ListNotations.
Local Open Scope R_scope.

(** ** Idealised binary64 values *)

Inductive float : Type :=
| Fin (x : R)
| PInf
| NInf
| NaN.

Definition Rltb (x y : R) : bool := if Rlt_dec x y then true else false.
Definition Reqb (x y : R) : bool := if Req_dec_T x y then true else false.

Definition is_nan (x : float) : bool :=
  match x with NaN => true | _ => false end.

Definition fneg (x : float) : float :=
  match x with
  | Fin a => Fin (- a)
  | PInf => NInf
  | NInf => PInf
  | NaN => NaN
  end.

Definition fabs (x : float) : float :=
  match x with
  | Fin a => Fin (Rabs a)
  | PInf | NInf => PInf
  | NaN => NaN
  end.

Definition fadd (x y : float) : float :=
  match x, y with
  | NaN, _ | _, NaN => NaN
  | Fin a, Fin b => Fin (a + b)
  | PInf, NInf | NInf, PInf => NaN
  | PInf, _ | _, PInf => PInf
  | NInf, _ | _, NInf => NInf
  end.

Definition fsub (x y : float) : float := fadd x (fneg y).

(** An infinity times a finite value: the sign rule, and [inf * 0 = nan]. *)
Definition scale_inf (positive : bool) (a : R) : float :=
  if Rltb 0 a then (if positive then PInf else NInf)
  else if Rltb a 0 then (if positive then NInf else PInf)
  else NaN.

Definition fmul (x y : float) : float :=
  match x, y with
  | NaN, _ | _, NaN => NaN
  | Fin a, Fin b => Fin (a * b)
  | PInf, Fin a | Fin a, PInf => scale_inf true a
  | NInf, Fin a | Fin a, NInf => scale_inf false a
  | PInf, PInf | NInf, NInf => PInf
  | PInf, NInf | NInf, PInf => NInf
  end.

(** IEEE division, as numpy performs it (a warning, never an exception):
    [x / 0] is an infinity of the sign of [x], [0 / 0] is [nan]. *)
Definition fdiv (x y : float) : float :=
  match x, y with
  | NaN, _ | _, NaN => NaN
  | Fin a, Fin b =>
      if Reqb b 0 then
        (if Rltb 0 a then PInf else if Rltb a 0 then NInf else NaN)
      else Fin (a / b)
  | Fin _, (PInf | NInf) => Fin 0
  | PInf, Fin b => if Rltb b 0 then NInf else PInf
  | NInf, Fin b => if Rltb b 0 then PInf else NInf
  | (PInf | NInf), (PInf | NInf) => NaN
  end.

Definition fsqrt (x : float) : float :=
  match x with
  | Fin a => if Rltb a 0 then NaN else Fin (sqrt a)
  | PInf => PInf
  | NInf | NaN => NaN
  end.

(** Comparisons: every comparison with [nan] is false. *)
Definition flt (x y : float) : bool :=
  match x, y with
  | NaN, _ | _, NaN => false
  | Fin a, Fin b => Rltb a b
  | _, NInf => false
  | NInf, _ => true
  | PInf, _ => false
  | Fin _, PInf => true
  end.

Definition fgt (x y : float) : bool := flt y x.

Definition feq (x y : float) : bool :=
  match x, y with
  | Fin a, Fin b => Reqb a b
  | PInf, PInf | NInf, NInf => true
  | _, _ => false
  end.

Definition fle (x y : float) : bool := flt x y || feq x y.
Definition fge (x y : float) : bool := fle y x.

(** ** Exceptions and results *)

(** Exceptions are identified by their class.  The first four are the
    built-in classes the modelled code can raise.  The last six are the error
    kinds named by the specification (section 7); no code path of the
    program constructs any of them. *)
Inductive exn : Type :=
| ZeroDivisionError
| OverflowError
| ValueError
| IndexError
| InsufficientHistory
| EmptyCandidateSet
| DivisionUndefined
| InvalidInput
| ZeroReturnUndefined
| UndefinedExponentiation.

Inductive result (A : Type) : Type :=
| Ok (a : A)
| Raise (e : exn).
Arguments Ok {A} a.
Arguments Raise {A} e.

Definition bind {A B : Type} (c : result A) (k : A -> result B) : result B :=
  match c with
  | Ok a => k a
  | Raise e => Raise e
  end.

Notation "x <- c ;; k" := (bind c (fun x => k))
  (at level 61, c at next level, right associativity).

(** The two kinds of binary64 scalar the functions receive.  They differ in
    what a division by zero and a fractional power of a negative number do:
    a Python [float] raises [ZeroDivisionError], resp. returns a [complex];
    a [numpy.float64] returns [inf]/[nan] (with a warning on stderr). *)
Inductive flavour : Type := Python | Numpy.

(** ** Python numbers: [float] and [complex] *)

(** A value of Python arithmetic in [calculate_investment_needs]: a float, or
    the complex number a fractional power of a negative float evaluates to. *)
Inductive pynum : Type :=
| PyFloat (x : float)
| PyComplex (re im : float).


Definition to_complex (v : pynum) : float * float :=
  match v with
  | PyFloat x => (x, Fin 0)
  | PyComplex re im => (re, im)
  end.

(** [iw == floor(iw)] and [DOUBLE_IS_ODD_INTEGER(iw)] of [float_pow]. *)
Definition is_integer (y : R) : bool := Reqb (IZR (Zfloor y)) y.
Definition is_odd_integer (y : R) : bool := is_integer y && Z.odd (Zfloor y).

(** Division of two floats: [float.__truediv__] raises on a zero divisor,
    [numpy.float64] follows IEEE. *)
Definition float_div (k : flavour) (x y : float) : result float :=
  match k with
  | Python => if feq y (Fin 0) then Raise ZeroDivisionError else Ok (fdiv x y)
  | Numpy => Ok (fdiv x y)
  end.

(** The largest finite binary64, [(2 - 2^-52) * 2^1023]. *)
Definition DBL_MAX : R := IZR (2 ^ 1024 - 2 ^ 971).

(** [x ** y] on floats, after CPython's [float_pow]: the special cases are
    sorted out in its order, then the platform [pow] (here the real power
    [Rpower]) does the rest; a result beyond [DBL_MAX] sets [ERANGE], which
    [float_pow] raises as [OverflowError].  numpy's power is the IEEE [pow]:
    the same table, except that zero to a negative power and an overflow are
    [inf] and a negative base to a fractional power is [nan], where Python
    raises, resp. goes complex ([_Py_c_pow]: modulus [|x|^y], phase
    [pi * y]; [complex_pow] raises [OverflowError] when the modulus
    overflows). *)
Definition float_pow (k : flavour) (v w : float) : result pynum :=
  if feq w (Fin 0) then Ok (PyFloat (Fin 1))
  else
    match v, w with
    | NaN, _ => Ok (PyFloat NaN)
    | _, NaN => Ok (PyFloat (if feq v (Fin 1) then Fin 1 else NaN))
    | _, (PInf | NInf) =>
        let iv := fabs v in
        if feq iv (Fin 1) then Ok (PyFloat (Fin 1))
        else if Bool.eqb (fgt w (Fin 0)) (fgt iv (Fin 1)) then Ok (PyFloat PInf)
        else Ok (PyFloat (Fin 0))
    | (PInf | NInf), Fin y =>
        if Rltb 0 y
        then Ok (PyFloat (if is_odd_integer y then v else PInf))
        else Ok (PyFloat (Fin 0))
    | Fin x, Fin y =>
        if Reqb x 0 then
          if Rltb y 0 then
            match k with
            | Python => Raise ZeroDivisionError
            | Numpy => Ok (PyFloat PInf)
            end
          else Ok (PyFloat (Fin 0))
        else if Rltb x 0 then
          if is_integer y then
            if Rltb DBL_MAX (Rpower (- x) y) then
              match k with
              | Python => Raise OverflowError
              | Numpy => Ok (PyFloat (if is_odd_integer y then NInf else PInf))
              end
            else
              Ok (PyFloat (Fin ((if is_odd_integer y then -1 else 1)
                                * Rpower (- x) y)))
          else
            match k with
            | Python =>
                if Rltb DBL_MAX (Rpower (- x) y) then Raise OverflowError
                else
                  Ok (PyComplex (Fin (Rpower (- x) y * cos (PI * y)))
                                (Fin (Rpower (- x) y * sin (PI * y))))
            | Numpy => Ok (PyFloat NaN)
            end
        else if Rltb DBL_MAX (Rpower x y) then
          match k with
          | Python => Raise OverflowError
          | Numpy => Ok (PyFloat PInf)
          end
        else Ok (PyFloat (Fin (Rpower x y)))
    end.

(** [x ^ y] over the reals, wherever [float_pow] on finite operands returns a
    finite float: a positive base, a zero base with a non-negative exponent,
    a negative base with an integer exponent, the power within the binary64
    range. *)
Definition real_pow (x y : R) : R :=
  if Reqb y 0 then 1
  else if Reqb x 0 then 0
  else if Rltb x 0 then (if is_odd_integer y then -1 else 1) * Rpower (- x) y
  else Rpower x y.

(** Complex quotient, after [_Py_c_quot] (Smith's method); the only
    complex operation that can raise. *)
Definition c_quot (a b : float * float) : result (float * float) :=
  let '(ar, ai) := a in
  let '(br, bi) := b in
  let abs_breal := if flt br (Fin 0) then fneg br else br in
  let abs_bimag := if flt bi (Fin 0) then fneg bi else bi in
  if fge abs_breal abs_bimag then
    if feq abs_breal (Fin 0) then Raise ZeroDivisionError
    else
      let ratio := fdiv bi br in
      let denom := fadd br (fmul bi ratio) in
      Ok (fdiv (fadd ar (fmul ai ratio)) denom,
          fdiv (fsub ai (fmul ar ratio)) denom)
  else if fge abs_bimag abs_breal then
    let ratio := fdiv br bi in
    let denom := fadd (fmul br ratio) bi in
    Ok (fdiv (fadd (fmul ar ratio) ai) denom,
        fdiv (fsub (fmul ai ratio) ar) denom)
  else Ok (NaN, NaN).

(** Complex product, after [_Py_c_prod]. *)
Definition c_prod (a b : float * float) : float * float :=
  let '(ar, ai) := a in
  let '(br, bi) := b in
  (fsub (fmul ar br) (fmul ai bi), fadd (fmul ar bi) (fmul ai br)).

(** The binary operators, with Python's promotion of a float operand to
    complex when the other operand is complex. *)
Definition pynum_sub (a b : pynum) : pynum :=
  match a, b with
  | PyFloat x, PyFloat y => PyFloat (fsub x y)
  | _, _ =>
      let '(ar, ai) := to_complex a in
      let '(br, bi) := to_complex b in
      PyComplex (fsub ar br) (fsub ai bi)
  end.

Definition pynum_mul (a b : pynum) : pynum :=
  match a, b with
  | PyFloat x, PyFloat y => PyFloat (fmul x y)
  | _, _ => let '(re, im) := c_prod (to_complex a) (to_complex b) in
            PyComplex re im
  end.

Definition pynum_div (k : flavour) (a b : pynum) : result pynum :=
  match a, b with
  | PyFloat x, PyFloat y => q <- float_div k x y ;; Ok (PyFloat q)
  | _, _ => q <- c_quot (to_complex a) (to_complex b) ;;
            Ok (PyComplex (fst q) (snd q))
  end.

(** ** Personal_proj.py *)

Module PersonalProj.

(** *** pandas reductions on a column (numpy arithmetic, nulls skipped) *)

Definition dropna_values (l : list float) : list float :=
  filter (fun x => negb (is_nan x)) l.

Definition fsum (l : list float) : float := fold_left fadd l (Fin 0).

(** [Series.mean()]: the mean of the non-null values; [0 / 0 = nan] when
    there is none. *)
Definition mean (l : list float) : float :=
  let v := dropna_values l in
  fdiv (fsum v) (Fin (INR (length v))).

(** [Series.std()]: the sample standard deviation ([ddof = 1]) of the
    non-null values; [nan] when there are fewer than two. *)
Definition std (l : list float) : float :=
  let v := dropna_values l in
  let n := length v in
  if (n <=? 1)%nat then NaN
  else
    let m := fdiv (fsum v) (Fin (INR n)) in
    let sq := map (fun x => fmul (fsub x m) (fsub x m)) v in
    fsqrt (fdiv (fsum sq) (Fin (INR (n - 1)))).

Definition fmin2 (a b : float) : float := if flt b a then b else a.
Definition fmax2 (a b : float) : float := if flt a b then b else a.

(** [Series.min()] and [Series.max()]: over the non-null values. *)
Definition series_min (l : list float) : float :=
  match dropna_values l with
  | [] => NaN
  | x :: t => fold_left fmin2 t x
  end.

Definition series_max (l : list float) : float :=
  match dropna_values l with
  | [] => NaN
  | x :: t => fold_left fmax2 t x
  end.

(** [Series.pct_change()] with the default padding: nulls are filled forward,
    then each value is divided by its predecessor, minus one; the first
    entry has no predecessor and is null. *)
Fixpoint ffill_from (prev : float) (l : list float) : list float :=
  match l with
  | [] => []
  | x :: t => let v := if is_nan x then prev else x in v :: ffill_from v t
  end.

Fixpoint pct_from (prev : float) (l : list float) : list float :=
  match l with
  | [] => []
  | x :: t => fsub (fdiv x prev) (Fin 1) :: pct_from x t
  end.

Definition pct_change (l : list float) : list float :=
  pct_from NaN (ffill_from NaN l).

(** *** The price history *)

(** A row of [hist_data]: the index is used through its calendar year only
    (by [resample('Y')]); [Close] is the closing price. *)
Record bar : Type := { year : Z; Close : float }.

(** The yearly bins of [resample('Y')]: every calendar year from the first to
    the last year of the index, the years without data included. *)
Definition year_bins (hist_data : list bar) : list Z :=
  match hist_data with
  | [] => []
  | b :: t =>
      let lo := fold_right Z.min (year b) (map year t) in
      let hi := fold_right Z.max (year b) (map year t) in
      map (fun i => (lo + Z.of_nat i)%Z) (seq 0 (Z.to_nat (hi - lo + 1)))
  end.

(** [.last()] of a bin: its last non-null value, null when it has none. *)
Definition last_valid (l : list float) : float :=
  fold_left (fun acc x => if is_nan x then acc else x) l NaN.

Definition resample_Y_last (hist_data : list bar) : list float :=
  map (fun y => last_valid
                  (map Close (filter (fun b => (year b =? y)%Z) hist_data)))
      (year_bins hist_data).

Record metrics : Type := {
  avg_annual_return : float;
  volatility : float;
  max_drawdown : float;
  current_price : float
}.

(** [hist_data['Close'][-1]]: the last price; an empty column has none. *)
Definition last_close (hist_data : list bar) : result float :=
  match rev hist_data with
  | [] => Raise IndexError
  | b :: _ => Ok (Close b)
  end.

Definition calculate_metrics (hist_data : list bar) : result metrics :=
  let annual_returns := pct_change (resample_Y_last hist_data) in
  let close := map Close hist_data in
  price <- last_close hist_data ;;
  Ok {| avg_annual_return := mean annual_returns;
        volatility := std annual_returns;
        max_drawdown :=
          fdiv (fsub (series_min close) (series_max close)) (series_max close);
        current_price := price |}.

(** *** The contribution schedule *)

Record schedule : Type := {
  yearly : pynum;
  monthly : pynum;
  weekly : pynum
}.

(** [yearly = goal_amount / ((1 + r) ** n_years - 1) * r], evaluated left to
    right with the arithmetic of the scalars passed in. *)
Definition calculate_investment_needs (k : flavour)
    (goal_amount years annual_return : float) : result schedule :=
  let r := annual_return in
  let n_years := years in
  p <- float_pow k (fadd (Fin 1) r) n_years ;;
  q <- pynum_div k (PyFloat goal_amount) (pynum_sub p (PyFloat (Fin 1))) ;;
  let yearly := pynum_mul q (PyFloat r) in
  monthly <- pynum_div k yearly (PyFloat (Fin 12)) ;;
  weekly <- pynum_div k yearly (PyFloat (Fin 52)) ;;
  Ok {| yearly := yearly; monthly := monthly; weekly := weekly |}.

(** The schedule the closed form gives for a yearly amount [v]. *)
Definition schedule_of (v : R) : schedule :=
  {| yearly := PyFloat (Fin v);
     monthly := PyFloat (Fin (v / 12));
     weekly := PyFloat (Fin (v / 52)) |}.

(** What numpy arithmetic leaves when an operand is undefined. *)
Definition nan_schedule : schedule :=
  {| yearly := PyFloat NaN; monthly := PyFloat NaN; weekly := PyFloat NaN |}.

(** *** Scoring and selection *)

(** The metrics of the candidates are pandas reductions, hence numpy
    scalars: the reciprocals follow IEEE division. *)
Definition get_index_score (m : metrics) (years : float) : float :=
  fmul
    (fadd
       (fadd (fmul (avg_annual_return m) (Fin (4 / 10)))
             (fmul (fdiv (Fin 1) (fabs (volatility m))) (Fin (3 / 10))))
       (fmul (fdiv (Fin 1) (fabs (max_drawdown m))) (Fin (3 / 10))))
    (if fgt years (Fin 10) then Fin 1 else Fin (8 / 10)).

(** The factor for the horizon, as a real. *)
Definition horizon_factor (years : float) : R :=
  if fgt years (Fin 10) then 1 else 8 / 10.

(** [max(d, key=d.get)] over a dict, given as its items in insertion order
    (the key of an item looked up in [d] is the item's own value): the first
    item is kept until a later one compares strictly greater. *)
Fixpoint max_from (best : string * float) (items : list (string * float))
  : string * float :=
  match items with
  | [] => best
  | it :: rest => max_from (if fgt (snd it) (snd best) then it else best) rest
  end.

Definition max_by_value (d : list (string * float)) : result string :=
  match d with
  | [] => Raise ValueError
  | it :: rest => Ok (fst (max_from it rest))
  end.

Definition index_scores (index_metrics : list (string * metrics))
    (years_to_goal : float) : list (string * float) :=
  map (fun nm => (fst nm, get_index_score (snd nm) years_to_goal))
      index_metrics.

Definition recommended_index (index_metrics : list (string * metrics))
    (years_to_goal : float) : result string :=
  max_by_value (index_scores index_metrics years_to_goal).

(** Two candidates of the examples: one with a zero volatility. *)
Definition flat_candidate : metrics :=
  {| avg_annual_return := Fin (5 / 100); volatility := Fin 0;
     max_drawdown := Fin (- (2 / 10)); current_price := Fin 100 |}.

Definition usual_candidate : metrics :=
  {| avg_annual_return := Fin (1 / 10); volatility := Fin (2 / 10);
     max_drawdown := Fin (- (5 / 10)); current_price := Fin 100 |}.

End PersonalProj.

(** ** script.py *)

Module Script.

(** A data frame is a list of rows.  What the functions need of a row: its
    date (a day number), its price, and whether any of its cells is null
    (what [dropna] tests). *)
Class Row (A : Type) : Type := {
  Date : A -> Z;
  Price : A -> float;
  has_null : A -> bool
}.

(** The frame of the fetchers: columns [Date] and [Price]. *)
Record quote : Type := { q_date : Z; q_price : float }.

(** The frame after [calculate_returns]: column [Return] added. *)
Record ret_row : Type := { r_date : Z; r_price : float; Return : float }.

#[export] Instance quote_Row : Row quote :=
  {| Date := q_date; Price := q_price;
     has_null := fun q => is_nan (q_price q) |}.

#[export] Instance ret_row_Row : Row ret_row :=
  {| Date := r_date; Price := r_price;
     has_null := fun r => is_nan (r_price r) || is_nan (Return r) |}.

Definition calculate_returns (df : list quote) : list ret_row :=
  map (fun qr => {| r_date := q_date (fst qr); r_price := q_price (fst qr);
                    Return := snd qr |})
      (combine df (PersonalProj.pct_change (map q_price df))).

(** [252 ** 0.5] is a power of a positive constant: the real power. *)
Definition calculate_volatility (df : list ret_row) : float :=
  if forallb is_nan (map Return df) then Fin 0
  else fmul (PersonalProj.std (map Return df)) (Fin (Rpower 252 (1 / 2))).

(** *** The least-squares line *)

Definition Rsum (l : list R) : R := fold_right Rplus 0 l.

(** The finite values of a column, when all of them are finite. *)
Fixpoint finite_values (l : list float) : option (list R) :=
  match l with
  | [] => Some []
  | Fin x :: t =>
      match finite_values t with
      | Some v => Some (x :: v)
      | None => None
      end
  | _ :: _ => None
  end.

(** [LinearRegression().fit(X, y)] with one feature: the data are centred,
    the coefficient is the least-squares slope and the intercept puts the
    line through the means. *)
Definition fit (xs ys : list R) : R * R :=
  let n := INR (length xs) in
  let x_mean := Rsum xs / n in
  let y_mean := Rsum ys / n in
  let sxy := Rsum (map (fun xy => (fst xy - x_mean) * (snd xy - y_mean))
                       (combine xs ys)) in
  let sxx := Rsum (map (fun x => (x - x_mean) * (x - x_mean)) xs) in
  let coef := sxy / sxx in
  (coef, y_mean - x_mean * coef).

Definition predict (model : R * R) (x : R) : R := x * fst model + snd model.

(** The returned frame: columns [Date] and [Predicted Price].  The estimator
    rejects an infinite price at [fit] and an empty [future_days] at
    [predict], both with [ValueError]. *)
Definition linear_regression_forecast {A : Type} `{Row A}
    (df : list A) (days : Z) : result (list (Z * float)) :=
  let df := filter (fun r => negb (has_null r)) df in
  match df with
  | [] => Ok []
  | first :: _ =>
      if (length df <? 2)%nat then Ok []
      else
        let Days := map INR (seq 0 (length df)) in
        match finite_values (map Price df) with
        | None => Raise ValueError
        | Some y =>
            let model := fit Days y in
            if (days <=? 0)%Z then Raise ValueError
            else
              let future_days := seq (length df) (Z.to_nat days) in
              let preds :=
                map (fun d => Fin (predict model (INR d))) future_days in
              let start := (Date (last df first) + 1)%Z in
              let future_dates :=
                map (fun i => (start + Z.of_nat i)%Z)
                    (seq 0 (Z.to_nat days)) in
              Ok (combine future_dates preds)
        end
  end.

End Script.

(** ** The callers in Personal_proj.py *)

Module App.
Import PersonalProj.

Definition INDICES : list (string * string) :=
  [ ("S&P 500", "^GSPC"); ("Nasdaq", "^IXIC");
    ("Dow Jones", "^DJI"); ("Russell 2000", "^RUT") ]%string.

(** [years_to_goal = (goal_date - datetime.now().date()).days / 365.25], on
    the number of days between today and the target date. *)
Definition years_to_goal (days : Z) : float := Fin (IZR days / 365.25).

(** A dict, as its items in insertion order: assignment to a key present
    keeps the key's place. *)
Fixpoint dict_set {V : Type} (d : list (string * V)) (k : string) (v : V)
  : list (string * V) :=
  match d with
  | [] => [(k, v)]
  | (k', v') :: t =>
      if String.eqb k' k then (k', v) :: t else (k', v') :: dict_set t k v
  end.

Fixpoint dict_get {V : Type} (d : list (string * V)) (k : string) : option V :=
  match d with
  | [] => None
  | (k', v') :: t => if String.eqb k' k then Some v' else dict_get t k
  end.

(** What a run of the planner can end with: an exception of the modelled
    functions, or the [KeyError] of a dict subscript. *)
Inductive app_error : Type :=
| Builtin (e : exn)
| KeyError.

Definition lift {A : Type} (r : result A) : app_error + A :=
  match r with
  | Ok a => inr a
  | Raise e => inl (Builtin e)
  end.

Definition subscript {V : Type} (d : list (string * V)) (k : string)
  : app_error + V :=
  match dict_get d k with
  | Some v => inr v
  | None => inl KeyError
  end.

(** The loop [for index_name, ticker in INDICES.items()] filling
    [index_metrics]; [get_historical_data] is the download, a function of
    the ticker here. *)
Fixpoint fill_index_metrics (get_historical_data : string -> list bar)
    (items : list (string * string)) (index_metrics : list (string * metrics))
  : result (list (string * metrics)) :=
  match items with
  | [] => Ok index_metrics
  | (index_name, ticker) :: rest =>
      m <- calculate_metrics (get_historical_data ticker) ;;
      fill_index_metrics get_historical_data rest
        (dict_set index_metrics index_name m)
  end.

(** The computation of [run_cli_app] (and, identically, of
    [run_streamlit_app]) between the inputs and the display: the recommended index, its metrics and the
    investment needs.  The return passed on is a pandas reduction, so the
    arithmetic of the needs is numpy's. *)
Definition run_cli_app (get_historical_data : string -> list bar)
    (goal_amount : float) (days : Z)
  : app_error + (string * metrics * schedule) :=
  let years := years_to_goal days in
  match lift (fill_index_metrics get_historical_data INDICES []) with
  | inl e => inl e
  | inr index_metrics =>
      match lift (recommended_index index_metrics years) with
      | inl e => inl e
      | inr recommended =>
          match subscript index_metrics recommended with
          | inl e => inl e
          | inr m =>
              match lift (calculate_investment_needs Numpy goal_amount years
                            (avg_annual_return m)) with
              | inl e => inl e
              | inr investment_needs => inr (recommended, m, investment_needs)
              end
          end
      end
  end.

End App.

(** ** Yardsticks of the properties *)

(** A range of inputs of the planner on which binary64 rounding stays far
    below the sixth significant digit of the result and nothing overflows: a
    goal between 1 and 10^12, a horizon between half a year and 100 years, a
    return between 0.1 and 100 percent or between -90 and -0.1 percent. *)
Definition planning_range (g y r : R) : Prop :=
  1 <= g <= 1000000000000
  /\ 1 / 2 <= y <= 100
  /\ (1 / 1000 <= r <= 1 \/ - (9 / 10) <= r <= - (1 / 1000)).

(** The balance after [n] years of a deposit [c] at each year's end, at the
    yearly rate [r]. *)
Fixpoint annuity_balance (r c : R) (n : nat) : R :=
  match n with
  | O => 0
  | S n' => annuity_balance r c n' * (1 + r) + c
  end.

(** The sum of the squared residuals of the line [model] on the points. *)
Definition squared_error (model : R * R) (xs ys : list R) : R :=
  Script.Rsum (map (fun xy => (snd xy - Script.predict model (fst xy))
                              * (snd xy - Script.predict model (fst xy)))
                   (combine xs ys)).

(** A row of the frame after [calculate_returns], with a finite return. *)
Definition with_return (qr : Script.quote * R) : Script.ret_row :=
  {| Script.r_date := Script.q_date (fst qr);
     Script.r_price := Script.q_price (fst qr);
     Script.Return := Fin (snd qr) |}.

(** * Properties *)

(** ** Deciding comparisons of reals *)

Lemma Rltb_true (x y : R) : x < y -> Rltb x y = true.
Proof. intros H. unfold Rltb. destruct (Rlt_dec x y); [reflexivity | contradiction]. Qed.

Lemma Rltb_false (x y : R) : ~ x < y -> Rltb x y = false.
Proof. intros H. unfold Rltb. destruct (Rlt_dec x y); [contradiction | reflexivity]. Qed.

Lemma Reqb_true (x y : R) : x = y -> Reqb x y = true.
Proof. intros H. unfold Reqb. destruct (Req_dec_T x y); [reflexivity | contradiction]. Qed.

Lemma Reqb_false (x y : R) : x <> y -> Reqb x y = false.
Proof. intros H. unfold Reqb. destruct (Req_dec_T x y); [contradiction | reflexivity]. Qed.



(** Resolves the tests on reals whose outcome linear arithmetic decides. *)
Ltac rdec :=
  repeat first
    [ rewrite Rltb_true by lra
    | rewrite Rltb_false by lra
    | rewrite Reqb_true by lra
    | rewrite Reqb_false by lra ].

Lemma Rdiv_lower (l n d : R) : 0 < d -> l * d <= n -> l <= n / d.
Proof.
  intros Hd H. apply Rmult_le_reg_r with d; [exact Hd |].
  unfold Rdiv. rewrite Rmult_assoc, Rinv_l by lra. lra.
Qed.

Lemma Rdiv_upper (u n d : R) : 0 < d -> n <= u * d -> n / d <= u.
Proof.
  intros Hd H. apply Rmult_le_reg_r with d; [exact Hd |].
  unfold Rdiv. rewrite Rmult_assoc, Rinv_l by lra. lra.
Qed.


(** *** The binary64 range *)

Lemma DBL_MAX_above (z : Z) :
  (z <= 2 ^ 1024 - 2 ^ 971)%Z -> IZR z <= DBL_MAX.
Proof. intros Hz. unfold DBL_MAX. apply IZR_le. exact Hz. Qed.

Lemma DBL_MAX_ge_1 : 1 <= DBL_MAX.
Proof. apply (DBL_MAX_above 1). vm_compute. discriminate. Qed.

Lemma Rpower_base_1 (y : R) : Rpower 1 y = 1.
Proof. unfold Rpower. rewrite ln_1, Rmult_0_r. apply exp_0. Qed.

(** A power of a base in (0, 2] to an exponent in [0, 100] is far inside
    the binary64 range. *)
Lemma Rpower_in_range (x y : R) :
  0 < x <= 2 -> 0 <= y <= 100 -> Rpower x y <= DBL_MAX.
Proof.
  intros Hx Hy.
  apply Rle_trans with (Rpower 2 y);
    [apply Rle_Rpower_l; [lra | exact Hx] |].
  apply Rle_trans with (Rpower 2 (INR 100));
    [apply Rle_Rpower; [lra |] |].
  - rewrite INR_IZR_INZ. simpl. lra.
  - rewrite Rpower_pow by lra. rewrite pow_IZR.
    apply DBL_MAX_above. vm_compute. discriminate.
Qed.

Lemma Rpower_gt_1 (x y : R) : 1 < x -> 0 < y -> 1 < Rpower x y.
Proof.
  intros Hx Hy. unfold Rpower. rewrite <- exp_0. apply exp_increasing.
  apply Rmult_lt_0_compat; [exact Hy |].
  rewrite <- ln_1. apply ln_increasing; lra.
Qed.

Lemma Rpower_lt_1 (x y : R) : 0 < x < 1 -> 0 < y -> Rpower x y < 1.
Proof.
  intros Hx Hy. unfold Rpower. rewrite <- exp_0. apply exp_increasing.
  assert (Hln : ln x < 0) by (rewrite <- ln_1; apply ln_increasing; lra).
  nra.
Qed.

Lemma real_pow_positive_base (x y : R) :
  0 < x -> 0 < y -> real_pow x y = Rpower x y.
Proof.
  intros Hx Hy. unfold real_pow. rdec. reflexivity.
Qed.

Lemma float_pow_real (k : flavour) (x y : R) :
  0 < y -> 0 <= x \/ is_integer y = true ->
  Rpower (Rabs x) y <= DBL_MAX ->
  float_pow k (Fin x) (Fin y) = Ok (PyFloat (Fin (real_pow x y))).
Proof.
  intros Hy Hdef Hmax. unfold float_pow, real_pow. cbn [feq].
  rewrite (Reqb_false y 0) by lra.
  destruct (Req_dec_T x 0) as [Hx | Hx].
  - rewrite (Reqb_true x 0 Hx). rewrite (Rltb_false y 0) by lra. reflexivity.
  - rewrite (Reqb_false x 0 Hx).
    destruct (Rlt_dec x 0) as [Hneg | Hpos].
    + rewrite (Rltb_true x 0 Hneg).
      destruct Hdef as [Hge | Hint]; [lra |]. rewrite Hint.
      rewrite (Rabs_left x Hneg) in Hmax.
      rewrite (Rltb_false DBL_MAX (Rpower (- x) y)) by lra. reflexivity.
    + rewrite (Rltb_false x 0 Hpos).
      rewrite (Rabs_right x) in Hmax by lra.
      rewrite (Rltb_false DBL_MAX (Rpower x y)) by lra. reflexivity.
Qed.

Lemma real_pow_one (y : R) : real_pow 1 y = 1.
Proof.
  unfold real_pow. destruct (Req_dec_T y 0) as [Hy | Hy].
  - rewrite (Reqb_true y 0 Hy). reflexivity.
  - rewrite (Reqb_false y 0 Hy). rdec.
    unfold Rpower. rewrite ln_1, Rmult_0_r. apply exp_0.
Qed.

Module PlanFacts.
Import PersonalProj.

Lemma plan_closed_form (k : flavour) (g y r : R) :
  0 < y -> 0 <= 1 + r \/ is_integer y = true ->
  Rpower (Rabs (1 + r)) y <= DBL_MAX -> real_pow (1 + r) y <> 1 ->
  calculate_investment_needs k (Fin g) (Fin y) (Fin r)
  = Ok (schedule_of (g * r / (real_pow (1 + r) y - 1))).
Proof.
  intros Hy Hdef Hmax Hne. unfold calculate_investment_needs.
  cbn [fadd]. rewrite (float_pow_real k (1 + r) y Hy Hdef Hmax).
  cbn [bind pynum_sub fsub fneg fadd pynum_div float_div feq].
  set (P := real_pow (1 + r) y) in *.
  assert (HP : P + - (1) <> 0) by lra.
  assert (Hq : float_div k (Fin g) (Fin (P + - (1))) = Ok (Fin (g / (P + - (1))))).
  { unfold float_div, fdiv, feq. rewrite (Reqb_false _ 0 HP). destruct k; reflexivity. }
  rewrite Hq. cbn [bind pynum_mul fmul].
  assert (Hd : forall a c, c <> 0 -> float_div k (Fin a) (Fin c) = Ok (Fin (a / c))).
  { intros a c Hc. unfold float_div, fdiv, feq. rewrite (Reqb_false _ 0 Hc).
    destruct k; reflexivity. }
  cbn [pynum_div]. rewrite !Hd by lra. cbn [bind].
  unfold schedule_of.
  replace (g / (P + - (1)) * r) with (g * r / (P - 1)) by (field; lra).
  reflexivity.
Qed.

(** On the planning range the call returns the closed form, which is
    positive. *)
Lemma plan_in_range (k : flavour) (g y r : R) :
  planning_range g y r ->
  calculate_investment_needs k (Fin g) (Fin y) (Fin r)
  = Ok (schedule_of (g * r / (Rpower (1 + r) y - 1)))
  /\ 0 < g * r / (Rpower (1 + r) y - 1).
Proof.
  intros [Hg [Hy Hr]].
  assert (Hbase : 0 < 1 + r <= 2) by lra.
  assert (Hpow : real_pow (1 + r) y = Rpower (1 + r) y)
    by (apply real_pow_positive_base; lra).
  assert (Hside : (0 < r /\ 1 < Rpower (1 + r) y)
                  \/ (r < 0 /\ Rpower (1 + r) y < 1)).
  { destruct Hr as [Hr | Hr].
    - left. split; [lra | apply Rpower_gt_1; lra].
    - right. split; [lra | apply Rpower_lt_1; lra]. }
  split.
  - rewrite <- Hpow. apply plan_closed_form.
    + lra.
    + left; lra.
    + rewrite Rabs_right by lra. apply Rpower_in_range; lra.
    + rewrite Hpow. destruct Hside as [[_ H] | [_ H]]; lra.
  - destruct Hside as [[Hr0 H] | [Hr0 H]].
    + apply Rdiv_lt_0_compat; nra.
    + replace (g * r / (Rpower (1 + r) y - 1))
        with (g * (- r) / (1 - Rpower (1 + r) y)) by (field; lra).
      apply Rdiv_lt_0_compat; nra.
Qed.

Lemma example_in_range : planning_range 100000 (INR 5) (7 / 100).
Proof. unfold planning_range. simpl. lra. Qed.

(** The example of the specification: goal 100000, 5 years, 7 percent. *)
Lemma plan_example (k : flavour) :
  calculate_investment_needs k (Fin 100000) (Fin 5) (Fin (7 / 100))
  = Ok (schedule_of (100000 * (7 / 100) / ((1 + 7 / 100) ^ 5 - 1))).
Proof.
  replace 5 with (INR 5) by (simpl; lra).
  rewrite (proj1 (plan_in_range k _ _ _ example_in_range)).
  rewrite Rpower_pow by lra. reflexivity.
Qed.

Lemma plan_example_bounds :
  17389.06 <= 100000 * (7 / 100) / ((1 + 7 / 100) ^ 5 - 1) <= 17389.08.
Proof. split; [apply Rdiv_lower | apply Rdiv_upper]; lra. Qed.

(** C1 (as amended).  For every goal_amount, horizon_years and
    annual_return r of the planning range (goal in [1, 10^12], horizon in
    [0.5, 100] years, r in [0.001, 1] or in [-0.9, -0.001]),
    [calculate_investment_needs] returns
    yearly = goal_amount * r / ((1+r)^horizon_years - 1), monthly = yearly/12
    and weekly = yearly/52, with Python floats and with numpy scalars alike;
    in particular for goal 100000, 5 years and r = 0.07 the yearly amount is
    the closed form 100000 * 0.07 / (1.07^5 - 1), which is 17389.07 within
    0.01. *)
Theorem plan_formula :
  (forall (k : flavour) (g y r : R),
      planning_range g y r ->
      calculate_investment_needs k (Fin g) (Fin y) (Fin r)
      = Ok (schedule_of (g * r / (Rpower (1 + r) y - 1))))
  /\ (forall k : flavour, exists v : R,
         calculate_investment_needs k (Fin 100000) (Fin 5) (Fin (7 / 100))
         = Ok (schedule_of v)
         /\ v = 100000 * (7 / 100) / ((1 + 7 / 100) ^ 5 - 1)
         /\ Rabs (v - 17389.07) <= 1 / 100).
Proof.
  split.
  - intros k g y r Hrange. apply (proj1 (plan_in_range k g y r Hrange)).
  - intros k. eexists. split; [apply plan_example | split; [reflexivity |]].
    pose proof plan_example_bounds as [Hl Hu].
    apply Rabs_le. lra.
Qed.

(** C1, an instance of the general statement: 1000 to reach in one year at
    100 percent needs 1000 a year. *)
Lemma plan_formula_witness :
  calculate_investment_needs Python (Fin 1000) (Fin 1) (Fin 1)
  = Ok (schedule_of (1000 * 1 / (Rpower (1 + 1) 1 - 1))).
Proof.
  apply (proj1 plan_formula Python 1000 1 1).
  unfold planning_range. lra.
Defined.

(** A power beyond the binary64 range: goal 1000, 400 years, a return of
    1000 percent. *)
Lemma plan_overflow_example :
  calculate_investment_needs Python (Fin 1000) (Fin 400) (Fin 10)
  = Raise OverflowError.
Proof.
  unfold calculate_investment_needs, float_pow. cbn [fadd feq].
  rewrite (Reqb_false 400 0) by lra.
  rewrite (Reqb_false (1 + 10) 0) by lra.
  rewrite (Rltb_false (1 + 10) 0) by lra.
  assert (Hbig : DBL_MAX < Rpower (1 + 10) 400).
  { replace (1 + 10) with 11 by lra.
    replace 400 with (INR 400) by (rewrite INR_IZR_INZ; reflexivity).
    rewrite Rpower_pow by lra. rewrite pow_IZR.
    unfold DBL_MAX. apply IZR_lt. vm_compute. reflexivity. }
  rewrite (Rltb_true _ _ Hbig). reflexivity.
Qed.

(** C1, the claim as stated fails.  The yearly amount of the example is not
    within 0.01 of 17388.87; and the formula is not returned wherever it is
    defined: at goal 1000, 400 years and r = 10 the call raises
    OverflowError. *)
Lemma plan_example_not_17388_87 :
  (exists v : R,
      calculate_investment_needs Python (Fin 100000) (Fin 5) (Fin (7 / 100))
      = Ok (schedule_of v)
      /\ Rabs (v - 17388.87) > 1 / 100)
  /\ calculate_investment_needs Python (Fin 1000) (Fin 400) (Fin 10)
     = Raise OverflowError.
Proof.
  split; [| exact plan_overflow_example].
  eexists. split; [apply plan_example |].
  pose proof plan_example_bounds as [Hl Hu].
  rewrite Rabs_right; lra.
Qed.

(** *** A zero return *)

Lemma plan_zero_return_python (g y : R) :
  0 < y ->
  calculate_investment_needs Python (Fin g) (Fin y) (Fin 0)
  = Raise ZeroDivisionError.
Proof.
  intros Hy. unfold calculate_investment_needs. cbn [fadd].
  replace (1 + 0) with 1 by lra.
  rewrite (float_pow_real Python 1 y Hy)
    by (try (left; lra); rewrite Rabs_R1, Rpower_base_1; apply DBL_MAX_ge_1).
  rewrite real_pow_one.
  cbn [bind pynum_sub fsub fneg fadd pynum_div float_div feq].
  rewrite (Reqb_true (1 + - (1)) 0) by lra. reflexivity.
Qed.

Lemma plan_zero_return_numpy (g y : R) :
  0 < g -> 0 < y ->
  calculate_investment_needs Numpy (Fin g) (Fin y) (Fin 0) = Ok nan_schedule.
Proof.
  intros Hg Hy. unfold calculate_investment_needs. cbn [fadd].
  replace (1 + 0) with 1 by lra.
  rewrite (float_pow_real Numpy 1 y Hy)
    by (try (left; lra); rewrite Rabs_R1, Rpower_base_1; apply DBL_MAX_ge_1).
  rewrite real_pow_one.
  cbn [bind pynum_sub fsub fneg fadd pynum_div float_div fdiv].
  rewrite (Reqb_true (1 + - (1)) 0) by lra. rewrite (Rltb_true 0 g Hg).
  cbn [bind pynum_mul fmul scale_inf]. unfold scale_inf. rdec.
  reflexivity.
Qed.

(** C5 (as amended).  For every goal_amount > 0 and horizon_years > 0,
    [calculate_investment_needs] with annual_return exactly 0 raises
    Python's own ZeroDivisionError when the operands are Python floats, and
    returns a schedule of three nan when they are numpy scalars (the
    division gives inf, the product inf * 0 gives nan). *)
Theorem plan_zero_return :
  forall g y : R, 0 < g -> 0 < y ->
    calculate_investment_needs Python (Fin g) (Fin y) (Fin 0)
    = Raise ZeroDivisionError
    /\ calculate_investment_needs Numpy (Fin g) (Fin y) (Fin 0)
       = Ok nan_schedule.
Proof.
  intros g y Hg Hy. split.
  - apply plan_zero_return_python; assumption.
  - apply plan_zero_return_numpy; assumption.
Qed.

(** C5 at goal 100000 and 5 years. *)
Lemma plan_zero_return_witness :
  calculate_investment_needs Python (Fin 100000) (Fin 5) (Fin 0)
  = Raise ZeroDivisionError
  /\ calculate_investment_needs Numpy (Fin 100000) (Fin 5) (Fin 0)
     = Ok nan_schedule.
Proof. apply (plan_zero_return 100000 5); lra. Defined.

(** C5, the claim as stated fails: with a zero return the call ends in the
    raw ZeroDivisionError, not in ZeroReturnUndefined. *)
Lemma plan_zero_return_untyped :
  calculate_investment_needs Python (Fin 100000) (Fin 5) (Fin 0)
  = Raise ZeroDivisionError
  /\ calculate_investment_needs Python (Fin 100000) (Fin 5) (Fin 0)
     <> Raise ZeroReturnUndefined.
Proof.
  assert (H : calculate_investment_needs Python (Fin 100000) (Fin 5) (Fin 0)
              = Raise ZeroDivisionError)
    by (apply plan_zero_return_python; lra).
  split; [exact H | rewrite H; discriminate].
Qed.

(** *** A negative base and a fractional exponent *)












End PlanFacts.

Module RankFacts.
Import PersonalProj.

Lemma fmul_comm (x y : float) : fmul x y = fmul y x.
Proof.
  destruct x, y; cbn; try reflexivity. f_equal. apply Rmult_comm.
Qed.

Lemma recip_abs_finite (v : R) :
  v <> 0 -> fdiv (Fin 1) (fabs (Fin v)) = Fin (1 / Rabs v).
Proof.
  intros Hv. cbn [fabs fdiv].
  rewrite (Reqb_false (Rabs v) 0) by (apply Rabs_no_R0; exact Hv).
  reflexivity.
Qed.

Lemma recip_abs_zero : fdiv (Fin 1) (fabs (Fin 0)) = PInf.
Proof.
  cbn [fabs fdiv]. rewrite Rabs_R0. rdec. reflexivity.
Qed.

Lemma horizon_factor_pos (years : float) : 0 < horizon_factor years.
Proof. unfold horizon_factor. destruct (fgt years (Fin 10)); lra. Qed.

Lemma score_factor (m : metrics) (years : float) :
  get_index_score m years
  = fmul (fadd (fadd (fmul (avg_annual_return m) (Fin (4 / 10)))
                     (fmul (fdiv (Fin 1) (fabs (volatility m))) (Fin (3 / 10))))
               (fmul (fdiv (Fin 1) (fabs (max_drawdown m))) (Fin (3 / 10))))
         (Fin (horizon_factor years)).
Proof.
  unfold get_index_score, horizon_factor.
  destruct (fgt years (Fin 10)); reflexivity.
Qed.

(** C3.  For every candidate whose volatility and maximum drawdown are not
    zero and every horizon, the score is
    (0.4 * avg_annual_return + 0.3 * (1 / |volatility|)
     + 0.3 * (1 / |max_drawdown|)) times 1.0 when the horizon exceeds 10 years
    and times 0.8 otherwise, a horizon of exactly 10 years included: stated
    on the float operations for all metrics, and as a real number when the
    metrics and the horizon are finite. *)
Theorem score_formula :
  (forall (m : metrics) (years : float),
      volatility m <> Fin 0 -> max_drawdown m <> Fin 0 ->
      get_index_score m years
      = fmul (fadd (fadd (fmul (Fin (4 / 10)) (avg_annual_return m))
                         (fmul (Fin (3 / 10))
                               (fdiv (Fin 1) (fabs (volatility m)))))
                   (fmul (Fin (3 / 10))
                         (fdiv (Fin 1) (fabs (max_drawdown m)))))
             (if fgt years (Fin 10) then Fin 1 else Fin (8 / 10)))
  /\ (forall (a v d p y : R),
         v <> 0 -> d <> 0 ->
         get_index_score
           {| avg_annual_return := Fin a; volatility := Fin v;
              max_drawdown := Fin d; current_price := Fin p |} (Fin y)
         = Fin ((4 / 10 * a + 3 / 10 * (1 / Rabs v) + 3 / 10 * (1 / Rabs d))
                * (if Rlt_dec 10 y then 1 else 8 / 10)))
  /\ (forall m : metrics,
         get_index_score m (Fin 10)
         = fmul (fadd (fadd (fmul (Fin (4 / 10)) (avg_annual_return m))
                            (fmul (Fin (3 / 10))
                                  (fdiv (Fin 1) (fabs (volatility m)))))
                      (fmul (Fin (3 / 10))
                            (fdiv (Fin 1) (fabs (max_drawdown m)))))
                (Fin (8 / 10))).
Proof.
  split; [| split].
  - intros m years _ _. unfold get_index_score.
    rewrite (fmul_comm (avg_annual_return m)).
    rewrite (fmul_comm (fdiv (Fin 1) (fabs (volatility m)))).
    rewrite (fmul_comm (fdiv (Fin 1) (fabs (max_drawdown m)))).
    reflexivity.
  - intros a v d p y Hv Hd. unfold get_index_score.
    cbn [avg_annual_return volatility max_drawdown].
    rewrite (recip_abs_finite v Hv), (recip_abs_finite d Hd).
    unfold fgt. cbn [flt fmul fadd]. unfold Rltb.
    destruct (Rlt_dec 10 y); cbn [fmul]; f_equal; ring.
  - intros m. unfold get_index_score, fgt. cbn [flt].
    rewrite (Rltb_false 10 10) by lra.
    rewrite (fmul_comm (avg_annual_return m)).
    rewrite (fmul_comm (fdiv (Fin 1) (fabs (volatility m)))).
    rewrite (fmul_comm (fdiv (Fin 1) (fabs (max_drawdown m)))).
    reflexivity.
Qed.

(** C3 at a concrete candidate: return 0.1, volatility 0.2, drawdown -0.5,
    horizon 5 years. *)
Lemma score_formula_witness :
  get_index_score
    {| avg_annual_return := Fin (1 / 10); volatility := Fin (2 / 10);
       max_drawdown := Fin (- (5 / 10)); current_price := Fin 100 |} (Fin 5)
  = Fin ((4 / 10 * (1 / 10) + 3 / 10 * (1 / Rabs (2 / 10))
          + 3 / 10 * (1 / Rabs (- (5 / 10))))
         * (if Rlt_dec 10 5 then 1 else 8 / 10)).
Proof.
  apply (proj1 (proj2 score_formula) (1 / 10) (2 / 10) (- (5 / 10)) 100 5); lra.
Defined.

(** *** Reciprocals of zero *)

Lemma score_finite_value (a v d p y : R) :
  v <> 0 -> d <> 0 ->
  get_index_score
    {| avg_annual_return := Fin a; volatility := Fin v;
       max_drawdown := Fin d; current_price := Fin p |} (Fin y)
  = Fin ((a * (4 / 10) + 1 / Rabs v * (3 / 10) + 1 / Rabs d * (3 / 10))
         * horizon_factor (Fin y)).
Proof.
  intros Hv Hd. rewrite score_factor.
  cbn [avg_annual_return volatility max_drawdown].
  rewrite (recip_abs_finite v Hv), (recip_abs_finite d Hd). reflexivity.
Qed.

Lemma score_zero_reciprocal (a v d p : R) (years : float) :
  v = 0 \/ d = 0 ->
  get_index_score
    {| avg_annual_return := Fin a; volatility := Fin v;
       max_drawdown := Fin d; current_price := Fin p |} years
  = PInf.
Proof.
  intros Hz. rewrite score_factor.
  cbn [avg_annual_return volatility max_drawdown].
  pose proof (horizon_factor_pos years) as Hf.
  assert (Hinf : fmul PInf (Fin (3 / 10)) = PInf).
  { cbn [fmul]. unfold scale_inf. rdec. reflexivity. }
  assert (Hscale : fmul PInf (Fin (horizon_factor years)) = PInf).
  { cbn [fmul]. unfold scale_inf. rewrite (Rltb_true _ _ Hf). reflexivity. }
  destruct (Req_dec_T v 0) as [Hv | Hv]; destruct (Req_dec_T d 0) as [Hd | Hd];
    try (exfalso; destruct Hz; contradiction);
    try (subst v; rewrite recip_abs_zero, Hinf);
    try (subst d; rewrite recip_abs_zero, Hinf);
    try rewrite (recip_abs_finite v Hv);
    try rewrite (recip_abs_finite d Hd);
    cbn [fmul fadd]; exact Hscale.
Qed.

Lemma max_from_In (best : string * float) (items : list (string * float)) :
  In (max_from best items) (best :: items).
Proof.
  revert best. induction items as [| it rest IH]; intros best; cbn [max_from].
  - left; reflexivity.
  - specialize (IH (if fgt (snd it) (snd best) then it else best)).
    destruct IH as [IH | IH].
    + rewrite <- IH. destruct (fgt (snd it) (snd best)).
      * right; left; reflexivity.
      * left; reflexivity.
    + right; right; exact IH.
Qed.

Lemma recommended_index_returns (cs : list (string * metrics)) (y : float) :
  cs <> [] ->
  exists name : string,
    recommended_index cs y = Ok name /\ In name (map fst cs).
Proof.
  intros Hne. destruct cs as [| c rest]; [contradiction |].
  unfold recommended_index, index_scores. cbn [map max_by_value].
  eexists. split; [reflexivity |].
  set (items := map (fun nm => (fst nm, get_index_score (snd nm) y)) rest).
  pose proof (max_from_In (fst c, get_index_score (snd c) y) items) as Hin.
  apply (in_map fst) in Hin. cbn [map fst] in Hin.
  assert (Hnames : map fst items = map fst rest).
  { unfold items. rewrite map_map. reflexivity. }
  rewrite Hnames in Hin. exact Hin.
Qed.

(** C7 (as amended).  The selection never fails on a non-empty candidate
    set: it returns one of the candidates, also when a volatility or a
    maximum drawdown is exactly zero.  The reciprocal of such a zero is
    evaluated to +inf: a candidate with finite metrics of which the
    volatility or the maximum drawdown is zero has the score +inf. *)
Theorem rank_zero_divisor :
  (forall (cs : list (string * metrics)) (y : float),
      cs <> [] ->
      exists name : string,
        recommended_index cs y = Ok name /\ In name (map fst cs))
  /\ (forall (a v d p : R) (years : float),
         v = 0 \/ d = 0 ->
         get_index_score
           {| avg_annual_return := Fin a; volatility := Fin v;
              max_drawdown := Fin d; current_price := Fin p |} years
         = PInf).
Proof.
  split.
  - exact recommended_index_returns.
  - exact score_zero_reciprocal.
Qed.

(** C7 at a candidate of volatility zero. *)
Lemma rank_zero_divisor_witness :
  get_index_score
    {| avg_annual_return := Fin (5 / 100); volatility := Fin 0;
       max_drawdown := Fin (- (2 / 10)); current_price := Fin 100 |} (Fin 5)
  = PInf.
Proof.
  apply (proj2 rank_zero_divisor (5 / 100) 0 (- (2 / 10)) 100 (Fin 5)).
  left; reflexivity.
Defined.

(** C7, the claim as stated fails: with a candidate of volatility exactly
    zero the selection returns that candidate, on a score of +inf, and no
    DivisionUndefined is raised. *)
Lemma rank_zero_volatility_selected :
  recommended_index
    [("S&P 500"%string, flat_candidate); ("Nasdaq"%string, usual_candidate)]
    (Fin 5)
  = Ok "S&P 500"%string
  /\ get_index_score flat_candidate (Fin 5) = PInf
  /\ recommended_index
       [("S&P 500"%string, flat_candidate); ("Nasdaq"%string, usual_candidate)]
       (Fin 5)
     <> Raise DivisionUndefined.
Proof.
  assert (Hflat : get_index_score flat_candidate (Fin 5) = PInf)
    by (apply score_zero_reciprocal; left; reflexivity).
  assert (Hsel : recommended_index
            [("S&P 500"%string, flat_candidate);
             ("Nasdaq"%string, usual_candidate)] (Fin 5)
          = Ok "S&P 500"%string).
  { unfold recommended_index, index_scores. cbn [map fst snd].
    rewrite Hflat. unfold usual_candidate.
    rewrite score_finite_value by lra.
    reflexivity. }
  split; [exact Hsel | split; [exact Hflat |]].
  rewrite Hsel. discriminate.
Qed.

(** *** Equal scores *)

Lemma max_from_keeps (best : string * float) (after : list (string * float)) :
  (forall c', In c' after -> fgt (snd c') (snd best) = false) ->
  max_from best after = best.
Proof.
  induction after as [| a rest IH]; intros Hafter; [reflexivity |].
  cbn [max_from]. rewrite (Hafter a) by (left; reflexivity).
  apply IH. intros c' Hc'. apply Hafter. right; exact Hc'.
Qed.

Lemma max_from_first (best c : string * float)
    (before after : list (string * float)) :
  flt (snd best) (snd c) = true ->
  (forall c', In c' before -> flt (snd c') (snd c) = true) ->
  (forall c', In c' after -> fgt (snd c') (snd c) = false) ->
  max_from best (before ++ c :: after) = c.
Proof.
  revert best. induction before as [| it rest IH]; intros best Hb Hbefore Hafter.
  - cbn [app max_from]. unfold fgt at 1. rewrite Hb.
    apply max_from_keeps. exact Hafter.
  - cbn [app max_from]. apply IH.
    + destruct (fgt (snd it) (snd best)); [| exact Hb].
      apply Hbefore. left; reflexivity.
    + intros c' Hc'. apply Hbefore. right; exact Hc'.
    + exact Hafter.
Qed.

Lemma flt_irrefl (x : float) : flt x x = false.
Proof. destruct x; cbn [flt]; try reflexivity. apply Rltb_false. lra. Qed.

(** The first candidate that no later candidate beats and that beats every
    earlier one is the one selected. *)
Lemma recommended_index_first (before after : list (string * metrics))
    (c : string * metrics) (y : float) :
  (forall c', In c' before ->
              flt (get_index_score (snd c') y) (get_index_score (snd c) y)
              = true) ->
  (forall c', In c' after ->
              fgt (get_index_score (snd c') y) (get_index_score (snd c) y)
              = false) ->
  recommended_index (before ++ c :: after) y = Ok (fst c).
Proof.
  intros Hbefore Hafter.
  set (f := fun nm : string * metrics => (fst nm, get_index_score (snd nm) y)).
  assert (Hb : forall s, In s (map f before) -> flt (snd s) (snd (f c)) = true).
  { intros s Hs. apply in_map_iff in Hs. destruct Hs as [c' [<- Hc']].
    apply Hbefore, Hc'. }
  assert (Ha : forall s, In s (map f after) -> fgt (snd s) (snd (f c)) = false).
  { intros s Hs. apply in_map_iff in Hs. destruct Hs as [c' [<- Hc']].
    apply Hafter, Hc'. }
  unfold recommended_index, index_scores. fold f.
  rewrite map_app. cbn [map].
  destruct (map f before) as [| b0 rest] eqn:Eb.
  - cbn [app max_by_value]. rewrite (max_from_keeps _ _ Ha). reflexivity.
  - cbn [app max_by_value].
    rewrite (max_from_first b0 (f c) rest (map f after)).
    + reflexivity.
    + apply Hb. left; reflexivity.
    + intros c' Hc'. apply Hb. right; exact Hc'.
    + exact Ha.
Qed.

(** C8 (as amended).  When two candidates produce exactly equal scores, no
    earlier candidate reaches that score and no other candidate exceeds it,
    the selection returns the one of the two that comes first in the
    insertion order of the candidates, for every horizon; in particular, of
    two candidates with equal scores the first one is returned, whatever the
    identifiers are. *)
Theorem rank_tie_first_inserted :
  (forall (before mid after : list (string * metrics))
          (c1 c2 : string * metrics) (y : float),
      get_index_score (snd c1) y = get_index_score (snd c2) y ->
      (forall c', In c' before ->
                  flt (get_index_score (snd c') y) (get_index_score (snd c1) y)
                  = true) ->
      (forall c', In c' (mid ++ after) ->
                  fgt (get_index_score (snd c') y) (get_index_score (snd c1) y)
                  = false) ->
      recommended_index (before ++ c1 :: mid ++ c2 :: after) y = Ok (fst c1))
  /\ (forall (n1 n2 : string) (m1 m2 : metrics) (y : float),
         get_index_score m1 y = get_index_score m2 y ->
         recommended_index [(n1, m1); (n2, m2)] y = Ok n1).
Proof.
  assert (Hgen : forall (before mid after : list (string * metrics))
                        (c1 c2 : string * metrics) (y : float),
      get_index_score (snd c1) y = get_index_score (snd c2) y ->
      (forall c', In c' before ->
                  flt (get_index_score (snd c') y) (get_index_score (snd c1) y)
                  = true) ->
      (forall c', In c' (mid ++ after) ->
                  fgt (get_index_score (snd c') y) (get_index_score (snd c1) y)
                  = false) ->
      recommended_index (before ++ c1 :: mid ++ c2 :: after) y = Ok (fst c1)).
  { intros before mid after c1 c2 y Heq Hbefore Hothers.
    apply recommended_index_first; [exact Hbefore |].
    intros c' Hc'. apply in_app_or in Hc'. destruct Hc' as [Hc' | [<- | Hc']].
    - apply Hothers. apply in_or_app. left; exact Hc'.
    - rewrite <- Heq. unfold fgt. apply flt_irrefl.
    - apply Hothers. apply in_or_app. right; exact Hc'. }
  split; [exact Hgen |].
  intros n1 n2 m1 m2 y Heq.
  apply (Hgen [] [] [] (n1, m1) (n2, m2) y Heq); intros c' [].
Qed.

(** C8 at two candidates with the same metrics. *)
Lemma rank_tie_first_inserted_witness :
  recommended_index
    [("S&P 500"%string, usual_candidate); ("Nasdaq"%string, usual_candidate)]
    (Fin 5)
  = Ok "S&P 500"%string.
Proof.
  apply (proj2 rank_tie_first_inserted). reflexivity.
Defined.

(** C8, the claim as stated fails: "S&P 500" and "Nasdaq" with the same
    metrics have equal scores and "Nasdaq" is the lexically smaller
    identifier, yet "S&P 500", inserted first, is returned. *)
Lemma rank_tie_not_lexical :
  get_index_score usual_candidate (Fin 5)
  = get_index_score usual_candidate (Fin 5)
  /\ String.ltb "Nasdaq" "S&P 500" = true
  /\ recommended_index
       [("S&P 500"%string, usual_candidate); ("Nasdaq"%string, usual_candidate)]
       (Fin 5)
     = Ok "S&P 500"%string
  /\ recommended_index
       [("S&P 500"%string, usual_candidate); ("Nasdaq"%string, usual_candidate)]
       (Fin 5)
     <> Ok "Nasdaq"%string.
Proof.
  assert (Hsel : recommended_index
            [("S&P 500"%string, usual_candidate);
             ("Nasdaq"%string, usual_candidate)] (Fin 5)
          = Ok "S&P 500"%string).
  { apply (recommended_index_first [] [("Nasdaq"%string, usual_candidate)]
             ("S&P 500"%string, usual_candidate) (Fin 5)).
    - intros c' [].
    - intros c' [<- | []]. unfold fgt. apply flt_irrefl. }
  split; [reflexivity | split; [reflexivity | split; [exact Hsel |]]].
  rewrite Hsel. discriminate.
Qed.

End RankFacts.

Module MetricsFacts.
Import PersonalProj.

(** *** Reductions on columns of finite values *)

Lemma dropna_values_finite (ps : list R) :
  dropna_values (map Fin ps) = map Fin ps.
Proof.
  induction ps as [| p t IH]; [reflexivity |].
  cbn [map]. unfold dropna_values in *. cbn [filter is_nan negb].
  rewrite IH. reflexivity.
Qed.

Lemma fmin2_finite (a b : R) : fmin2 (Fin a) (Fin b) = Fin (Rmin a b).
Proof.
  unfold fmin2, Rmin. cbn [flt]. unfold Rltb.
  destruct (Rlt_dec b a), (Rle_dec a b); try reflexivity; f_equal; lra.
Qed.

Lemma fmax2_finite (a b : R) : fmax2 (Fin a) (Fin b) = Fin (Rmax a b).
Proof.
  unfold fmax2, Rmax. cbn [flt]. unfold Rltb.
  destruct (Rlt_dec a b), (Rle_dec a b); try reflexivity; f_equal; lra.
Qed.

Lemma fold_fmin2_finite (t : list R) (x : R) :
  fold_left fmin2 (map Fin t) (Fin x) = Fin (fold_left Rmin t x).
Proof.
  revert x. induction t as [| a t IH]; intros x; [reflexivity |].
  cbn [map fold_left]. rewrite fmin2_finite. apply IH.
Qed.

Lemma fold_fmax2_finite (t : list R) (x : R) :
  fold_left fmax2 (map Fin t) (Fin x) = Fin (fold_left Rmax t x).
Proof.
  revert x. induction t as [| a t IH]; intros x; [reflexivity |].
  cbn [map fold_left]. rewrite fmax2_finite. apply IH.
Qed.

Lemma fold_Rmin_least (t : list R) (x : R) :
  In (fold_left Rmin t x) (x :: t)
  /\ forall p, In p (x :: t) -> fold_left Rmin t x <= p.
Proof.
  revert x. induction t as [| a t IH]; intros x.
  - cbn. split; [left; reflexivity | intros p [<- | []]; lra].
  - cbn [fold_left]. destruct (IH (Rmin x a)) as [Hin Hle]. split.
    + destruct Hin as [Hin | Hin].
      * rewrite <- Hin. unfold Rmin. destruct (Rle_dec x a).
        -- left; reflexivity.
        -- right; left; reflexivity.
      * right; right; exact Hin.
    + assert (Hm : fold_left Rmin t (Rmin x a) <= Rmin x a)
        by (apply Hle; left; reflexivity).
      intros p [<- | [<- | Hp]].
      * pose proof (Rmin_l x a). lra.
      * pose proof (Rmin_r x a). lra.
      * apply Hle. right; exact Hp.
Qed.

Lemma fold_Rmax_greatest (t : list R) (x : R) :
  In (fold_left Rmax t x) (x :: t)
  /\ forall p, In p (x :: t) -> p <= fold_left Rmax t x.
Proof.
  revert x. induction t as [| a t IH]; intros x.
  - cbn. split; [left; reflexivity | intros p [<- | []]; lra].
  - cbn [fold_left]. destruct (IH (Rmax x a)) as [Hin Hle]. split.
    + destruct Hin as [Hin | Hin].
      * rewrite <- Hin. unfold Rmax. destruct (Rle_dec x a).
        -- right; left; reflexivity.
        -- left; reflexivity.
      * right; right; exact Hin.
    + assert (Hm : Rmax x a <= fold_left Rmax t (Rmax x a))
        by (apply Hle; left; reflexivity).
      intros p [<- | [<- | Hp]].
      * pose proof (Rmax_l x a). lra.
      * pose proof (Rmax_r x a). lra.
      * apply Hle. right; exact Hp.
Qed.

Lemma last_close_nonempty (h : list bar) :
  h <> [] -> exists v : float, last_close h = Ok v.
Proof.
  intros Hne. unfold last_close. destruct (rev h) as [| b r] eqn:E.
  - exfalso. apply Hne. rewrite <- (rev_involutive h), E. reflexivity.
  - eexists; reflexivity.
Qed.

Lemma drawdown_of_finite_prices (h : list bar) (x : R) (t : list R) :
  map Close h = map Fin (x :: t) ->
  (forall p, In p (x :: t) -> 0 < p) ->
  exists m : metrics,
    calculate_metrics h = Ok m
    /\ max_drawdown m
       = Fin ((fold_left Rmin t x - fold_left Rmax t x) / fold_left Rmax t x).
Proof.
  intros Hclose Hpos.
  assert (Hne : h <> []) by (intros ->; discriminate Hclose).
  destruct (last_close_nonempty h Hne) as [v Hv].
  unfold calculate_metrics. rewrite Hv. cbn [bind].
  eexists. split; [reflexivity |]. cbn [max_drawdown].
  rewrite Hclose. unfold series_min, series_max.
  rewrite dropna_values_finite. cbn [map].
  rewrite fold_fmin2_finite, fold_fmax2_finite.
  destruct (fold_Rmax_greatest t x) as [Hin _].
  pose proof (Hpos _ Hin) as Hmx.
  cbn [fsub fneg fadd fdiv]. rewrite Reqb_false by lra. reflexivity.
Qed.

(** C2.  For every non-empty price series whose prices are all strictly
    positive (finite) numbers, [calculate_metrics] returns metrics whose
    maximum drawdown is (mn - mx) / mx, where mn is the least and mx the
    greatest price of the whole series, and this value lies in [-1, 0]. *)
Theorem max_drawdown_range :
  forall (h : list bar) (ps : list R),
    h <> [] ->
    map Close h = map Fin ps ->
    (forall p, In p ps -> 0 < p) ->
    exists (m : metrics) (mn mx : R),
      calculate_metrics h = Ok m
      /\ (In mn ps /\ forall p, In p ps -> mn <= p)
      /\ (In mx ps /\ forall p, In p ps -> p <= mx)
      /\ max_drawdown m = Fin ((mn - mx) / mx)
      /\ -1 <= (mn - mx) / mx <= 0.
Proof.
  intros h ps Hne Hclose Hpos.
  destruct ps as [| x t].
  { destruct h; [contradiction | discriminate Hclose]. }
  destruct (drawdown_of_finite_prices h x t Hclose Hpos) as [m [Hm Hdd]].
  pose proof (fold_Rmin_least t x) as Hmin.
  pose proof (fold_Rmax_greatest t x) as Hmax.
  exists m, (fold_left Rmin t x), (fold_left Rmax t x).
  split; [exact Hm |]. split; [exact Hmin |]. split; [exact Hmax |].
  split; [exact Hdd |].
  destruct Hmin as [Hmin_in Hmin_le]. destruct Hmax as [Hmax_in Hmax_ge].
  pose proof (Hpos _ Hmin_in) as Hmn. pose proof (Hpos _ Hmax_in) as Hmx.
  pose proof (Hmin_le _ Hmax_in) as Hle.
  split; [apply Rdiv_lower | apply Rdiv_upper]; lra.
Qed.

(** C2 on the three prices 100, 80, 120 of the years 2022 to 2024. *)
Lemma max_drawdown_range_witness :
  exists (m : metrics) (mn mx : R),
    calculate_metrics
      [ {| year := 2022; Close := Fin 100 |};
        {| year := 2023; Close := Fin 80 |};
        {| year := 2024; Close := Fin 120 |} ] = Ok m
    /\ (In mn [100; 80; 120] /\ forall p, In p [100; 80; 120] -> mn <= p)
    /\ (In mx [100; 80; 120] /\ forall p, In p [100; 80; 120] -> p <= mx)
    /\ max_drawdown m = Fin ((mn - mx) / mx)
    /\ -1 <= (mn - mx) / mx <= 0.
Proof.
  apply (max_drawdown_range
           [ {| year := 2022; Close := Fin 100 |};
             {| year := 2023; Close := Fin 80 |};
             {| year := 2024; Close := Fin 120 |} ] [100; 80; 120]).
  - discriminate.
  - reflexivity.
  - intros p [<- | [<- | [<- | []]]]; lra.
Defined.

(** *** A history within one calendar year *)

Lemma fold_min_same (y0 : Z) (l : list Z) :
  (forall y, In y l -> y = y0) -> fold_right Z.min y0 l = y0.
Proof.
  induction l as [| a t IH]; intros Hall; [reflexivity |].
  cbn [fold_right]. rewrite IH by (intros y Hy; apply Hall; right; exact Hy).
  rewrite (Hall a) by (left; reflexivity). apply Z.min_id.
Qed.

Lemma fold_max_same (y0 : Z) (l : list Z) :
  (forall y, In y l -> y = y0) -> fold_right Z.max y0 l = y0.
Proof.
  induction l as [| a t IH]; intros Hall; [reflexivity |].
  cbn [fold_right]. rewrite IH by (intros y Hy; apply Hall; right; exact Hy).
  rewrite (Hall a) by (left; reflexivity). apply Z.max_id.
Qed.

Lemma year_bins_single (h : list bar) (y0 : Z) :
  h <> [] -> (forall b, In b h -> year b = y0) -> year_bins h = [y0].
Proof.
  intros Hne Hall. destruct h as [| b t]; [contradiction |].
  unfold year_bins.
  assert (Hb : year b = y0) by (apply Hall; left; reflexivity).
  assert (Ht : forall y, In y (map year t) -> y = y0).
  { intros y Hy. apply in_map_iff in Hy. destruct Hy as [b' [<- Hb']].
    apply Hall. right; exact Hb'. }
  rewrite Hb, (fold_min_same y0 _ Ht), (fold_max_same y0 _ Ht).
  replace (y0 - y0 + 1)%Z with 1%Z by lia.
  change (Z.to_nat 1) with 1%nat. cbn [seq map Z.of_nat].
  rewrite Z.add_0_r. reflexivity.
Qed.

Lemma pct_change_single (v : float) : pct_change [v] = [NaN].
Proof. destruct v; reflexivity. Qed.

Lemma mean_all_null : mean [NaN] = NaN.
Proof.
  unfold mean. cbn [dropna_values filter is_nan negb length fsum fold_left INR fdiv].
  rdec. reflexivity.
Qed.

Lemma std_all_null : std [NaN] = NaN.
Proof. reflexivity. Qed.

Lemma metrics_single_year (h : list bar) (y0 : Z) :
  h <> [] -> (forall b, In b h -> year b = y0) ->
  exists m : metrics,
    calculate_metrics h = Ok m
    /\ avg_annual_return m = NaN
    /\ volatility m = NaN.
Proof.
  intros Hne Hall.
  destruct (last_close_nonempty h Hne) as [v Hv].
  unfold calculate_metrics. rewrite Hv. cbn [bind].
  eexists. split; [reflexivity |].
  cbn [avg_annual_return volatility].
  unfold resample_Y_last. rewrite (year_bins_single h y0 Hne Hall).
  cbn [map]. rewrite pct_change_single.
  split; [apply mean_all_null | apply std_all_null].
Qed.

(** C4 (as amended).  For every non-empty price series that lies within one
    calendar year (fewer than 2 distinct years), [calculate_metrics] signals
    no error: it returns metrics whose average annual return and volatility
    are both nan. *)
Theorem metrics_short_history :
  forall (h : list bar) (y0 : Z),
    h <> [] -> (forall b, In b h -> year b = y0) ->
    exists m : metrics,
      calculate_metrics h = Ok m
      /\ avg_annual_return m = NaN
      /\ volatility m = NaN.
Proof. exact metrics_single_year. Qed.

(** C4 at two prices of the year 2024. *)
Lemma metrics_short_history_witness :
  exists m : metrics,
    calculate_metrics
      [ {| year := 2024; Close := Fin 100 |};
        {| year := 2024; Close := Fin 110 |} ] = Ok m
    /\ avg_annual_return m = NaN
    /\ volatility m = NaN.
Proof.
  apply (metrics_short_history _ 2024%Z).
  - discriminate.
  - intros b [<- | [<- | []]]; reflexivity.
Defined.

(** C4, the claim as stated fails: a series of the single price 100, of the
    year 2024, yields metrics with a nan average annual return and a nan
    volatility, and no InsufficientHistory. *)
Lemma metrics_single_point_nan :
  (exists m : metrics,
      calculate_metrics [ {| year := 2024; Close := Fin 100 |} ] = Ok m
      /\ avg_annual_return m = NaN
      /\ volatility m = NaN)
  /\ calculate_metrics [ {| year := 2024; Close := Fin 100 |} ]
     <> Raise InsufficientHistory.
Proof.
  destruct (metrics_single_year [ {| year := 2024; Close := Fin 100 |} ] 2024%Z)
    as [m [Hm [Ha Hv]]].
  - discriminate.
  - intros b [<- | []]; reflexivity.
  - split.
    + exists m. split; [exact Hm | split; assumption].
    + rewrite Hm. discriminate.
Qed.

End MetricsFacts.

Module ScriptFacts.
Import Script.

(** *** Volatility of a column of nulls *)

Lemma volatility_of_nulls (df : list ret_row) :
  forallb is_nan (map Return df) = true -> calculate_volatility df = Fin 0.
Proof. intros H. unfold calculate_volatility. rewrite H. reflexivity. Qed.

Lemma returns_of_one_point (q : quote) :
  map Return (calculate_returns [q]) = [NaN].
Proof.
  unfold calculate_returns. cbn [map].
  rewrite MetricsFacts.pct_change_single. reflexivity.
Qed.

(** C10.  Whenever the [Return] column is entirely null, [calculate_volatility]
    returns exactly 0.0, neither nan nor an error; this is the case of a
    series of one price point, whose only percentage change is null. *)
Theorem volatility_all_null :
  (forall df : list ret_row,
      forallb is_nan (map Return df) = true ->
      calculate_volatility df = Fin 0)
  /\ (forall q : quote,
         map Return (calculate_returns [q]) = [NaN]
         /\ calculate_volatility (calculate_returns [q]) = Fin 0).
Proof.
  split; [exact volatility_of_nulls |].
  intros q. split; [apply returns_of_one_point |].
  apply volatility_of_nulls. rewrite returns_of_one_point. reflexivity.
Qed.

(** C10 at a frame of two rows whose returns are null. *)
Lemma volatility_all_null_witness :
  calculate_volatility
    [ {| r_date := 19000; r_price := Fin 100; Return := NaN |};
      {| r_date := 19001; r_price := NaN; Return := NaN |} ]
  = Fin 0.
Proof. apply (proj1 volatility_all_null). reflexivity. Defined.

(** *** Sums and the fitted line *)

Lemma Rsum_affine (a b : R) (xs : list R) :
  Rsum (map (fun x => a + b * x) xs) = INR (length xs) * a + b * Rsum xs.
Proof.
  induction xs as [| x t IH].
  - cbn. ring.
  - cbn [map Rsum fold_right length]. unfold Rsum in IH. rewrite IH.
    rewrite S_INR. ring.
Qed.

Lemma Rsum_scale (b : R) (h : R -> R) (xs : list R) :
  Rsum (map (fun x => b * h x) xs) = b * Rsum (map h xs).
Proof.
  induction xs as [| x t IH].
  - cbn. ring.
  - cbn [map Rsum fold_right]. unfold Rsum in IH. rewrite IH. ring.
Qed.

Lemma Rsum_squares_nonneg (m : R) (xs : list R) :
  0 <= Rsum (map (fun x => (x - m) * (x - m)) xs).
Proof.
  induction xs as [| x t IH].
  - cbn. lra.
  - cbn [map Rsum fold_right]. unfold Rsum in IH.
    pose proof (Rle_0_sqr (x - m)) as Hsq. unfold Rsqr in Hsq. lra.
Qed.

Lemma Rsum_squares_pos (m x0 x1 : R) (xs : list R) :
  x0 <> x1 -> 0 < Rsum (map (fun x => (x - m) * (x - m)) (x0 :: x1 :: xs)).
Proof.
  intros Hne. cbn [map Rsum fold_right].
  pose proof (Rsum_squares_nonneg m xs) as Hrest. unfold Rsum in Hrest.
  pose proof (Rle_0_sqr (x0 - m)) as H0. unfold Rsqr in H0.
  pose proof (Rle_0_sqr (x1 - m)) as H1. unfold Rsqr in H1.
  destruct (Req_dec_T x0 m) as [E0 | E0].
  - assert (0 < (x1 - m) * (x1 - m)); [| lra].
    assert (Hd : x1 - m <> 0) by lra.
    pose proof (Rsqr_pos_lt (x1 - m) Hd) as Hp. unfold Rsqr in Hp. exact Hp.
  - assert (0 < (x0 - m) * (x0 - m)); [| lra].
    assert (Hd : x0 - m <> 0) by lra.
    pose proof (Rsqr_pos_lt (x0 - m) Hd) as Hp. unfold Rsqr in Hp. exact Hp.
Qed.

Lemma combine_map_r {A B : Type} (g : A -> B) (xs : list A) :
  combine xs (map g xs) = map (fun x => (x, g x)) xs.
Proof.
  induction xs as [| x t IH]; [reflexivity |].
  cbn [map combine]. rewrite IH. reflexivity.
Qed.

Lemma combine_map_both {A B C : Type} (f : A -> B) (g : A -> C) (l : list A) :
  combine (map f l) (map g l) = map (fun x => (f x, g x)) l.
Proof.
  induction l as [| x t IH]; [reflexivity |].
  cbn [map combine]. rewrite IH. reflexivity.
Qed.

(** The least-squares line through points that lie on a line is that line. *)
Lemma fit_affine (a b : R) (xs : list R) :
  xs <> [] ->
  Rsum (map (fun x => (x - Rsum xs / INR (length xs))
                      * (x - Rsum xs / INR (length xs))) xs) <> 0 ->
  fit xs (map (fun x => a + b * x) xs) = (b, a).
Proof.
  intros Hne Hsxx. unfold fit. cbv zeta.
  set (n := INR (length xs)) in *.
  assert (Hn : n <> 0).
  { unfold n. apply not_0_INR. destruct xs; [contradiction | discriminate]. }
  set (xm := Rsum xs / n) in *.
  rewrite Rsum_affine. fold n.
  replace ((n * a + b * Rsum xs) / n) with (a + b * xm)
    by (unfold xm; field; exact Hn).
  rewrite combine_map_r, map_map. cbn [fst snd].
  set (sxx := Rsum (map (fun x => (x - xm) * (x - xm)) xs)) in *.
  assert (Hsxy : Rsum (map (fun x => (x - xm) * (a + b * x - (a + b * xm))) xs)
                 = b * sxx).
  { unfold sxx. rewrite <- Rsum_scale. f_equal. apply map_ext.
    intros x. ring. }
  rewrite Hsxy. f_equal; field; exact Hsxx.
Qed.

(** *** The forecast of a series on a line *)

Lemma finite_values_Fin (ys : list R) : finite_values (map Fin ys) = Some ys.
Proof.
  induction ys as [| y t IH]; [reflexivity |].
  cbn [map finite_values]. rewrite IH. reflexivity.
Qed.

Lemma dropna_finite_prices (df : list quote) (ys : list R) :
  map q_price df = map Fin ys ->
  filter (fun r => negb (has_null r)) df = df.
Proof.
  revert ys. induction df as [| q t IH]; intros ys Hp; [reflexivity |].
  destruct ys as [| y ys']; [discriminate Hp |].
  cbn [map] in Hp. injection Hp as Hq Ht.
  assert (Hn : has_null q = false)
    by (cbn [has_null quote_Row]; rewrite Hq; reflexivity).
  cbn [filter]. rewrite Hn. cbn [negb].
  rewrite (IH ys' Ht). reflexivity.
Qed.

Lemma last_map {A B : Type} (f : A -> B) (l : list A) (d : A) (d' : B) :
  l <> [] -> f (last l d) = last (map f l) d'.
Proof.
  induction l as [| x t IH]; intros Hne; [contradiction |].
  destruct t as [| x' t']; [reflexivity |].
  change (f (last (x' :: t') d) = last (map f (x' :: t')) d').
  apply IH. discriminate.
Qed.

Lemma seq_from_zero (n k : nat) :
  seq n k = map (fun j => (n + j)%nat) (seq 0 k).
Proof.
  revert n. induction k as [| k IH]; intros n; [reflexivity |].
  cbn [seq map]. rewrite Nat.add_0_r. f_equal.
  rewrite (IH (S n)), (IH 1%nat), map_map. apply map_ext.
  intros j. lia.
Qed.

Lemma days_spread (n : nat) :
  (2 <= n)%nat ->
  let Days := map INR (seq 0 n) in
  Days <> []
  /\ Rsum (map (fun x => (x - Rsum Days / INR (length Days))
                         * (x - Rsum Days / INR (length Days))) Days) <> 0.
Proof.
  intros Hn Days. unfold Days.
  destruct n as [| [| n']]; [lia | lia |].
  cbn [seq map]. split; [discriminate |].
  apply Rgt_not_eq. apply Rsum_squares_pos.
  cbn [INR]. lra.
Qed.

(** C9.  For every price series of at least 2 points whose price at index
    position i is a + b * i, the forecast for k > 0 periods has exactly k
    points; the predicted prices continue the progression at the index
    positions n, n+1, ..., n+k-1 (n the length of the series) and the dates
    are the consecutive days after the last observed date. *)
Theorem forecast_affine :
  forall (df : list quote) (a b : R) (k : nat),
    (2 <= length df)%nat -> (0 < k)%nat ->
    map q_price df = map (fun i => Fin (a + b * INR i)) (seq 0 (length df)) ->
    linear_regression_forecast df (Z.of_nat k)
    = Ok (map (fun j => ((last (map q_date df) 0 + 1 + Z.of_nat j)%Z,
                         Fin (a + b * INR (length df + j))))
              (seq 0 k))
    /\ length (map (fun j => ((last (map q_date df) 0 + 1 + Z.of_nat j)%Z,
                              Fin (a + b * INR (length df + j))))
                   (seq 0 k)) = k.
Proof.
  intros df a b k Hlen Hk Hprices.
  split; [| rewrite length_map; apply length_seq].
  assert (Hys : map q_price df
                = map Fin (map (fun x => a + b * x)
                               (map INR (seq 0 (length df))))).
  { rewrite Hprices, !map_map. reflexivity. }
  unfold linear_regression_forecast.
  rewrite (dropna_finite_prices df _ Hys).
  destruct df as [| first rest] eqn:Edf; [cbn in Hlen; lia |].
  cbv beta iota. rewrite <- Edf in *.
  set (n := length df) in *.
  set (Days := map INR (seq 0 n)) in *.
  assert (Hlt : (n <? 2)%nat = false) by (apply Nat.ltb_ge; exact Hlen).
  rewrite Hlt. cbn [Price Date quote_Row].
  rewrite Hys, finite_values_Fin. fold Days.
  destruct (days_spread n Hlen) as [Hne Hsxx]. fold Days in Hne, Hsxx.
  rewrite (fit_affine a b Days Hne Hsxx).
  assert (Hdays : (Z.of_nat k <=? 0)%Z = false) by (apply Z.leb_gt; lia).
  rewrite Hdays, Nat2Z.id.
  rewrite (seq_from_zero n k), map_map, combine_map_both.
  f_equal. apply map_ext. intros j.
  rewrite (last_map q_date df first 0%Z) by (rewrite Edf; discriminate).
  unfold predict. cbn [fst snd]. f_equal. f_equal. ring.
Qed.

(** C9 on the example of the specification: the prices 10, 12, 14, 16, 18
    on the days 100 to 104 and 2 periods give 20 on day 105 and 22 on day
    106. *)
Lemma forecast_affine_witness :
  linear_regression_forecast
    [ {| q_date := 100; q_price := Fin 10 |};
      {| q_date := 101; q_price := Fin 12 |};
      {| q_date := 102; q_price := Fin 14 |};
      {| q_date := 103; q_price := Fin 16 |};
      {| q_date := 104; q_price := Fin 18 |} ] 2
  = Ok [ (105%Z, Fin 20); (106%Z, Fin 22) ].
Proof.
  etransitivity.
  - exact (proj1 (forecast_affine
             [ {| q_date := 100; q_price := Fin 10 |};
               {| q_date := 101; q_price := Fin 12 |};
               {| q_date := 102; q_price := Fin 14 |};
               {| q_date := 103; q_price := Fin 16 |};
               {| q_date := 104; q_price := Fin 18 |} ] 10 2 2
             ltac:(cbn; lia) ltac:(lia)
             ltac:(cbn; repeat f_equal; lra))).
  - cbn. repeat f_equal; lra.
Defined.

(** On the frame [calculate_returns] produces, [dropna] also removes the
    first row, whose [Return] is null: a series of two points then leaves
    fewer than two rows and the forecast is empty. *)
Remark forecast_after_returns_two_points (q1 q2 : quote) (days : Z) :
  linear_regression_forecast (calculate_returns [q1; q2]) days = Ok [].
Proof.
  unfold calculate_returns, PersonalProj.pct_change.
  cbn [map PersonalProj.ffill_from PersonalProj.pct_from combine fst snd].
  assert (Hnan : fsub (fdiv (if is_nan (q_price q1) then NaN else q_price q1) NaN)
                      (Fin 1) = NaN)
    by (destruct (q_price q1); reflexivity).
  rewrite Hnan. unfold linear_regression_forecast.
  cbn [filter has_null ret_row_Row r_price Return is_nan orb negb].
  rewrite Bool.orb_true_r. cbn [negb].
  match goal with
  | |- context [if negb ?c then _ else _] => destruct c
  end; reflexivity.
Qed.

End ScriptFacts.

(** * Further properties of the contribution schedule *)

Module PlanMore.
Import PersonalProj.

(** On the planning range the yearly amount is positive, hence
    weekly < monthly < yearly. *)
Theorem plan_amounts_positive :
  forall (k : flavour) (g y r : R),
    planning_range g y r ->
    exists v : R,
      calculate_investment_needs k (Fin g) (Fin y) (Fin r)
      = Ok (schedule_of v)
      /\ 0 < v / 52 < v / 12 /\ v / 12 < v.
Proof.
  intros k g y r Hrange.
  destruct (PlanFacts.plan_in_range k g y r Hrange) as [Hplan Hv].
  exists (g * r / (Rpower (1 + r) y - 1)). split; [exact Hplan | lra].
Qed.

Lemma plan_amounts_positive_witness :
  exists v : R,
    calculate_investment_needs Numpy (Fin 100000) (Fin (9 / 2))
      (Fin (- (1 / 10)))
    = Ok (schedule_of v)
    /\ 0 < v / 52 < v / 12 /\ v / 12 < v.
Proof.
  apply (plan_amounts_positive Numpy 100000 (9 / 2) (- (1 / 10))).
  unfold planning_range. lra.
Defined.

Lemma annuity_balance_closed (r c : R) (n : nat) :
  r <> 0 -> annuity_balance r c n = c * ((1 + r) ^ n - 1) / r.
Proof.
  intros Hr. induction n as [| n IH].
  - simpl. field. exact Hr.
  - cbn [annuity_balance]. rewrite IH. simpl. field. exact Hr.
Qed.

(** The yearly amount reaches the goal: on the planning range with a horizon
    of [n] whole years, deposited at the end of each year and compounding at
    the rate [r], it accumulates to the goal amount within one millionth of
    it (over the reals the balance is the goal itself; the program's amount
    carries the rounding of its arithmetic). *)
Theorem plan_reaches_goal :
  forall (k : flavour) (g r : R) (n : nat),
    planning_range g (INR n) r ->
    exists v : R,
      calculate_investment_needs k (Fin g) (Fin (INR n)) (Fin r)
      = Ok (schedule_of v)
      /\ Rabs (annuity_balance r v n - g) <= g / 1000000.
Proof.
  intros k g r n Hrange.
  destruct (PlanFacts.plan_in_range k g (INR n) r Hrange) as [Hplan _].
  destruct Hrange as [Hg [Hn Hr]].
  assert (Hr0 : r <> 0) by lra.
  assert (Hne : Rpower (1 + r) (INR n) <> 1).
  { destruct Hr as [Hr | Hr].
    - pose proof (Rpower_gt_1 (1 + r) (INR n)). lra.
    - pose proof (Rpower_lt_1 (1 + r) (INR n)). lra. }
  exists (g * r / (Rpower (1 + r) (INR n) - 1)). split; [exact Hplan |].
  rewrite annuity_balance_closed by exact Hr0.
  rewrite Rpower_pow in * by lra.
  replace (g * r / ((1 + r) ^ n - 1) * ((1 + r) ^ n - 1) / r - g) with 0
    by (field; lra).
  rewrite Rabs_R0. lra.
Qed.

Lemma plan_reaches_goal_witness :
  exists v : R,
    calculate_investment_needs Python (Fin 100000) (Fin (INR 5))
      (Fin (7 / 100))
    = Ok (schedule_of v)
    /\ Rabs (annuity_balance (7 / 100) v 5 - 100000) <= 100000 / 1000000.
Proof.
  apply (plan_reaches_goal Python 100000 (7 / 100) 5).
  apply PlanFacts.example_in_range.
Defined.

(** *** What the call can raise *)

Lemma float_pow_numpy (v w : float) :
  exists x : float, float_pow Numpy v w = Ok (PyFloat x).
Proof.
  unfold float_pow.
  repeat match goal with
         | |- context [if ?c then _ else _] => destruct c
         | |- context [match ?x with _ => _ end] => destruct x
         end;
    eexists; reflexivity.
Qed.

Lemma float_pow_python_raises (v w : float) (e : exn) :
  float_pow Python v w = Raise e ->
  e = ZeroDivisionError \/ e = OverflowError.
Proof.
  unfold float_pow.
  repeat match goal with
         | |- context [if ?c then _ else _] => destruct c
         | |- context [match ?x with _ => _ end] => destruct x
         end;
    intros H; (discriminate H || (injection H as <-; auto)).
Qed.

Lemma c_quot_raises (a b : float * float) (e : exn) :
  c_quot a b = Raise e -> e = ZeroDivisionError.
Proof.
  destruct a as [ar ai], b as [br bi]. unfold c_quot.
  repeat match goal with
         | |- context [if ?c then _ else _] => destruct c
         end;
    intros H; (discriminate H || (injection H as <-; reflexivity)).
Qed.

Lemma pynum_div_raises (k : flavour) (a b : pynum) (e : exn) :
  pynum_div k a b = Raise e -> e = ZeroDivisionError.
Proof.
  unfold pynum_div, float_div.
  destruct a, b, k; cbn [bind];
    repeat match goal with
           | |- context [if ?c then _ else _] => destruct c
           end;
    try (intros H; (discriminate H || (injection H as <-; reflexivity)));
    match goal with
    | |- context [c_quot ?x ?y] =>
        destruct (c_quot x y) as [q | e'] eqn:Eq; cbn [bind]; intros H;
        [discriminate H
        | injection H as <-; exact (c_quot_raises _ _ _ Eq)]
    end.
Qed.

Lemma plan_numpy_returns (g y r : float) :
  exists a b c : float,
    calculate_investment_needs Numpy g y r
    = Ok {| yearly := PyFloat a; monthly := PyFloat b; weekly := PyFloat c |}.
Proof.
  unfold calculate_investment_needs.
  destruct (float_pow_numpy (fadd (Fin 1) r) y) as [p Hp]. rewrite Hp.
  cbn [bind pynum_sub pynum_div float_div pynum_mul].
  do 3 eexists. reflexivity.
Qed.

(** With numpy scalars the call never raises: every input, infinite and nan
    included, gives a schedule of three floats.  With Python floats the only
    exceptions it can raise are ZeroDivisionError and OverflowError. *)
Theorem plan_raises_only_arithmetic_errors :
  (forall g y r : float,
      exists a b c : float,
        calculate_investment_needs Numpy g y r
        = Ok {| yearly := PyFloat a; monthly := PyFloat b;
                weekly := PyFloat c |})
  /\ (forall (g y r : float) (e : exn),
         calculate_investment_needs Python g y r = Raise e ->
         e = ZeroDivisionError \/ e = OverflowError).
Proof.
  split.
  - exact plan_numpy_returns.
  - intros g y r e. unfold calculate_investment_needs.
    destruct (float_pow Python (fadd (Fin 1) r) y) as [p | e1] eqn:Ep;
      cbn [bind].
    2: { intros H. injection H as <-. exact (float_pow_python_raises _ _ _ Ep). }
    destruct (pynum_div Python (PyFloat g) (pynum_sub p (PyFloat (Fin 1))))
      as [q | e2] eqn:Eq; cbn [bind].
    2: { intros H. injection H as <-. left.
         exact (pynum_div_raises _ _ _ _ Eq). }
    destruct (pynum_div Python (pynum_mul q (PyFloat r)) (PyFloat (Fin 12)))
      as [m | e3] eqn:Em; cbn [bind].
    2: { intros H. injection H as <-. left.
         exact (pynum_div_raises _ _ _ _ Em). }
    destruct (pynum_div Python (pynum_mul q (PyFloat r)) (PyFloat (Fin 52)))
      as [w | e4] eqn:Ew; cbn [bind].
    2: { intros H. injection H as <-. left.
         exact (pynum_div_raises _ _ _ _ Ew). }
    discriminate.
Qed.

(** At goal 1000, 400 years and a return of 1000 percent the power 11^400
    overflows: the premise holds with OverflowError. *)
Lemma plan_raises_only_arithmetic_errors_witness :
  calculate_investment_needs Python (Fin 1000) (Fin 400) (Fin 10)
  = Raise OverflowError
  /\ (OverflowError = ZeroDivisionError \/ OverflowError = OverflowError).
Proof.
  split; [exact PlanFacts.plan_overflow_example |].
  exact (proj2 plan_raises_only_arithmetic_errors _ _ _ _
           PlanFacts.plan_overflow_example).
Defined.

End PlanMore.

(** * Further properties of the selection *)

Module RankMore.
Import PersonalProj.

(** *** The horizon never reverses the order of two candidates *)

Lemma fgt_scale (a b : float) (f : R) :
  0 < f -> fgt (fmul a (Fin f)) (fmul b (Fin f)) = fgt a b.
Proof.
  intros Hf. unfold fgt.
  assert (Hp : scale_inf true f = PInf)
    by (unfold scale_inf; rewrite (Rltb_true 0 f Hf); reflexivity).
  assert (Hn : scale_inf false f = NInf)
    by (unfold scale_inf; rewrite (Rltb_true 0 f Hf); reflexivity).
  destruct a as [x | | |], b as [z | | |]; cbn [fmul]; rewrite ?Hp, ?Hn;
    cbn [flt]; try reflexivity.
  unfold Rltb. destruct (Rlt_dec (z * f) (x * f)), (Rlt_dec z x);
    try reflexivity; exfalso; nra.
Qed.

Lemma fgt_asym (a b : float) : fgt a b = true -> fgt b a = false.
Proof.
  unfold fgt. destruct a as [x | | |], b as [z | | |]; cbn [flt];
    try reflexivity; try discriminate.
  unfold Rltb. destruct (Rlt_dec z x), (Rlt_dec x z);
    intros H; try reflexivity; try discriminate H; exfalso; lra.
Qed.

(** The horizon multiplies the scores by one positive factor (1 or 0.8), so
    it never reverses the order of two candidates: when one candidate scores
    strictly higher than another at some horizon, the other scores strictly
    higher at no horizon. *)
Theorem horizon_keeps_order :
  forall (m1 m2 : metrics) (y1 y2 : float),
    fgt (get_index_score m1 y1) (get_index_score m2 y1) = true ->
    fgt (get_index_score m2 y2) (get_index_score m1 y2) = false.
Proof.
  intros m1 m2 y1 y2. rewrite !RankFacts.score_factor.
  rewrite !fgt_scale by apply RankFacts.horizon_factor_pos.
  apply fgt_asym.
Qed.

Lemma horizon_keeps_order_witness :
  fgt (get_index_score flat_candidate (Fin 5))
      (get_index_score usual_candidate (Fin 5)) = true
  /\ fgt (get_index_score usual_candidate (Fin 12))
         (get_index_score flat_candidate (Fin 12)) = false.
Proof.
  assert (H : fgt (get_index_score flat_candidate (Fin 5))
                  (get_index_score usual_candidate (Fin 5)) = true).
  { assert (Hflat : get_index_score flat_candidate (Fin 5) = PInf)
      by (apply RankFacts.score_zero_reciprocal; left; reflexivity).
    rewrite Hflat. unfold usual_candidate.
    rewrite RankFacts.score_finite_value by lra. reflexivity. }
  split; [exact H |].
  exact (horizon_keeps_order flat_candidate usual_candidate (Fin 5) (Fin 12) H).
Defined.

(** *** The recommended index has the greatest score *)

Lemma fle_refl (a : float) : is_nan a = false -> fle a a = true.
Proof.
  destruct a; intros H; try discriminate H; unfold fle; cbn [flt feq];
    try reflexivity.
  rewrite (Reqb_true x x eq_refl). apply Bool.orb_true_r.
Qed.

Lemma fle_total (a b : float) :
  is_nan a = false -> is_nan b = false -> fgt a b = false -> fle a b = true.
Proof.
  destruct a as [x | | |], b as [z | | |]; intros Ha Hb;
    try discriminate Ha; try discriminate Hb;
    unfold fgt, fle; cbn [flt feq]; try reflexivity; try discriminate.
  unfold Rltb, Reqb.
  destruct (Rlt_dec z x), (Rlt_dec x z), (Req_dec_T x z);
    intros H; try reflexivity; try discriminate H; exfalso; lra.
Qed.

Lemma fgt_fle (a b : float) : fgt a b = true -> fle b a = true.
Proof. unfold fgt, fle. intros ->. reflexivity. Qed.

Lemma fle_trans (a b c : float) :
  fle a b = true -> fle b c = true -> fle a c = true.
Proof.
  destruct a as [x | | |], b as [z | | |], c as [w | | |];
    unfold fle; cbn [flt feq orb]; try reflexivity; try discriminate.
  unfold Rltb, Reqb.
  destruct (Rlt_dec x z), (Req_dec_T x z), (Rlt_dec z w), (Req_dec_T z w),
    (Rlt_dec x w), (Req_dec_T x w);
    cbn [orb]; intros H1 H2; try reflexivity;
    try discriminate H1; try discriminate H2; exfalso; lra.
Qed.

Lemma max_from_greatest (best : string * float)
    (items : list (string * float)) :
  (forall it, In it (best :: items) -> is_nan (snd it) = false) ->
  forall it, In it (best :: items) ->
             fle (snd it) (snd (max_from best items)) = true.
Proof.
  revert best. induction items as [| a rest IH]; intros best Hnan it Hin.
  - destruct Hin as [<- | []]. cbn [max_from].
    apply fle_refl, Hnan. left; reflexivity.
  - cbn [max_from].
    assert (Hb : is_nan (snd best) = false) by (apply Hnan; left; reflexivity).
    assert (Ha : is_nan (snd a) = false)
      by (apply Hnan; right; left; reflexivity).
    set (b' := if fgt (snd a) (snd best) then a else best).
    assert (Hnan' : forall it', In it' (b' :: rest) -> is_nan (snd it') = false).
    { intros it' [<- | Hit'].
      - unfold b'. destruct (fgt (snd a) (snd best)); assumption.
      - apply Hnan. right; right; exact Hit'. }
    assert (Hb' : fle (snd b') (snd (max_from b' rest)) = true)
      by (apply (IH b' Hnan'); left; reflexivity).
    assert (Hboth : fle (snd best) (snd b') = true
                    /\ fle (snd a) (snd b') = true).
    { unfold b'. destruct (fgt (snd a) (snd best)) eqn:E.
      - split; [apply fgt_fle, E | apply fle_refl, Ha].
      - split; [apply fle_refl, Hb | apply fle_total; assumption]. }
    destruct Hboth as [H1 H2].
    destruct Hin as [<- | [<- | Hin]].
    + exact (fle_trans _ _ _ H1 Hb').
    + exact (fle_trans _ _ _ H2 Hb').
    + apply (IH b' Hnan'). right; exact Hin.
Qed.

(** When no candidate's score is nan, the recommended index is a candidate
    whose score is at least the score of every candidate. *)
Theorem recommendation_is_greatest :
  forall (cs : list (string * metrics)) (y : float) (name : string),
    (forall c, In c cs -> is_nan (get_index_score (snd c) y) = false) ->
    recommended_index cs y = Ok name ->
    exists m : metrics,
      In (name, m) cs
      /\ forall c, In c cs ->
                   fle (get_index_score (snd c) y) (get_index_score m y) = true.
Proof.
  intros cs y name Hnan Hsel. unfold recommended_index in Hsel.
  set (f := fun nm : string * metrics => (fst nm, get_index_score (snd nm) y)).
  assert (Hscores : index_scores cs y = map f cs) by reflexivity.
  rewrite Hscores in Hsel.
  destruct cs as [| c0 rest]; [discriminate Hsel |].
  cbn [map max_by_value] in Hsel. injection Hsel as Hname.
  assert (Hnan' : forall it, In it (f c0 :: map f rest) ->
                             is_nan (snd it) = false).
  { intros it Hit. change (f c0 :: map f rest) with (map f (c0 :: rest)) in Hit.
    apply in_map_iff in Hit. destruct Hit as [c [<- Hc]]. apply Hnan, Hc. }
  pose proof (RankFacts.max_from_In (f c0) (map f rest)) as Hin.
  change (f c0 :: map f rest) with (map f (c0 :: rest)) in Hin.
  apply in_map_iff in Hin. destruct Hin as [[n m] [Hfm Hm]].
  exists m. split.
  - rewrite <- Hname, <- Hfm. exact Hm.
  - intros c Hc.
    pose proof (max_from_greatest (f c0) (map f rest) Hnan' (f c)) as Hg.
    rewrite <- Hfm in Hg. apply Hg.
    change (f c0 :: map f rest) with (map f (c0 :: rest)).
    apply in_map. exact Hc.
Qed.

Lemma recommendation_is_greatest_witness :
  exists m : metrics,
    In ("Nasdaq"%string, m)
       [("S&P 500"%string, usual_candidate); ("Nasdaq"%string, flat_candidate)]
    /\ forall c,
         In c [("S&P 500"%string, usual_candidate);
               ("Nasdaq"%string, flat_candidate)] ->
         fle (get_index_score (snd c) (Fin 5)) (get_index_score m (Fin 5))
         = true.
Proof.
  assert (Hflat : get_index_score flat_candidate (Fin 5) = PInf)
    by (apply RankFacts.score_zero_reciprocal; left; reflexivity).
  assert (Husual : exists s, get_index_score usual_candidate (Fin 5) = Fin s).
  { unfold usual_candidate. rewrite RankFacts.score_finite_value by lra.
    eexists; reflexivity. }
  destruct Husual as [s Hs].
  apply (recommendation_is_greatest
           [("S&P 500"%string, usual_candidate);
            ("Nasdaq"%string, flat_candidate)] (Fin 5) "Nasdaq"%string).
  - intros c [<- | [<- | []]]; cbn [snd]; rewrite ?Hflat, ?Hs; reflexivity.
  - unfold recommended_index, index_scores. cbn [map fst snd].
    rewrite Hflat, Hs. reflexivity.
Defined.

(** *** A nan score *)

Lemma fgt_nan_r (a : float) : fgt a NaN = false.
Proof. destruct a; reflexivity. Qed.

(** A first candidate whose score is nan is recommended whatever the other
    candidates are: no score compares greater than nan. *)
Theorem nan_first_is_recommended :
  forall (c : string * metrics) (rest : list (string * metrics)) (y : float),
    is_nan (get_index_score (snd c) y) = true ->
    recommended_index (c :: rest) y = Ok (fst c).
Proof.
  intros c rest y Hnan.
  apply (RankFacts.recommended_index_first [] rest c y).
  - intros c' [].
  - intros c' _. destruct (get_index_score (snd c) y); try discriminate Hnan.
    apply fgt_nan_r.
Qed.

Lemma nan_first_is_recommended_witness :
  recommended_index
    [ ("S&P 500"%string,
       {| avg_annual_return := NaN; volatility := NaN;
          max_drawdown := Fin (- (1 / 10)); current_price := Fin 100 |});
      ("Nasdaq"%string, usual_candidate) ] (Fin 5)
  = Ok "S&P 500"%string.
Proof.
  apply (nan_first_is_recommended
           ("S&P 500"%string,
            {| avg_annual_return := NaN; volatility := NaN;
               max_drawdown := Fin (- (1 / 10)); current_price := Fin 100 |})).
  reflexivity.
Defined.

End RankMore.

(** * Further properties of the metrics *)

Module MetricsMore.
Import PersonalProj.

(** The metrics fail on the empty history only, with IndexError; on any
    other history they are returned and the current price is the close of
    the last row, a null close included. *)
Theorem metrics_fail_on_empty_only :
  calculate_metrics [] = Raise IndexError
  /\ forall (h : list bar) (b : bar),
       exists m : metrics,
         calculate_metrics (h ++ [b]) = Ok m /\ current_price m = Close b.
Proof.
  split; [reflexivity |].
  intros h b. unfold calculate_metrics, last_close.
  rewrite rev_app_distr. cbn [rev app bind].
  eexists. split; reflexivity.
Qed.

(** *** The volatility is never negative *)

Lemma fsqrt_not_negative (z : float) : flt (fsqrt z) (Fin 0) = false.
Proof.
  destruct z as [a | | |]; cbn [fsqrt flt]; try reflexivity.
  destruct (Rltb a 0); cbn [flt]; [reflexivity |].
  apply Rltb_false. pose proof (sqrt_pos a). lra.
Qed.

Lemma std_not_negative (l : list float) : flt (std l) (Fin 0) = false.
Proof.
  unfold std. destruct (length (dropna_values l) <=? 1)%nat; [reflexivity |].
  apply fsqrt_not_negative.
Qed.

(** Whatever the history, the volatility of the metrics is not below zero
    (it is a non-negative number, infinite or nan). *)
Theorem volatility_not_negative :
  forall (h : list bar) (m : metrics),
    calculate_metrics h = Ok m -> flt (volatility m) (Fin 0) = false.
Proof.
  intros h m. unfold calculate_metrics.
  destruct (last_close h) as [v | e]; cbn [bind]; [| discriminate].
  intros H. injection H as <-. cbn [volatility]. apply std_not_negative.
Qed.

Lemma volatility_not_negative_witness :
  exists m : metrics,
    calculate_metrics
      [ {| year := 2022; Close := Fin 100 |};
        {| year := 2023; Close := Fin 80 |};
        {| year := 2024; Close := Fin 120 |} ] = Ok m
    /\ flt (volatility m) (Fin 0) = false.
Proof.
  eexists. split; [reflexivity |].
  apply (volatility_not_negative
           [ {| year := 2022; Close := Fin 100 |};
             {| year := 2023; Close := Fin 80 |};
             {| year := 2024; Close := Fin 120 |} ]).
  reflexivity.
Defined.

(** *** Two calendar years are not enough for a volatility *)

Lemma ffill_from_length (prev : float) (l : list float) :
  length (ffill_from prev l) = length l.
Proof.
  revert prev. induction l as [| x t IH]; intros prev; [reflexivity |].
  cbn [ffill_from length]. rewrite IH. reflexivity.
Qed.

Lemma pct_from_length (prev : float) (l : list float) :
  length (pct_from prev l) = length l.
Proof.
  revert prev. induction l as [| x t IH]; intros prev; [reflexivity |].
  cbn [pct_from length]. rewrite IH. reflexivity.
Qed.

Lemma pct_change_length (l : list float) :
  length (pct_change l) = length l.
Proof. unfold pct_change. rewrite pct_from_length. apply ffill_from_length. Qed.

Lemma fdiv_nan_r (x : float) : fdiv x NaN = NaN.
Proof. destruct x; reflexivity. Qed.

(** The first percentage change is null. *)
Lemma pct_change_head (x : float) (t : list float) :
  exists rest, pct_change (x :: t) = NaN :: rest /\ length rest = length t.
Proof.
  unfold pct_change. cbn [ffill_from pct_from]. rewrite fdiv_nan_r.
  eexists. split; [reflexivity |].
  rewrite pct_from_length. apply ffill_from_length.
Qed.

Lemma dropna_values_length (l : list float) :
  (length (dropna_values l) <= length l)%nat.
Proof. unfold dropna_values. apply filter_length_le. Qed.

Lemma std_of_short_change (l : list float) :
  (length l <= 2)%nat -> std (pct_change l) = NaN.
Proof.
  intros Hlen. destruct l as [| x t].
  - reflexivity.
  - destruct (pct_change_head x t) as [rest [Hpc Hrest]]. rewrite Hpc.
    unfold std. cbn [dropna_values filter is_nan negb].
    fold (dropna_values rest).
    pose proof (dropna_values_length rest) as Hd.
    cbn [length] in Hlen.
    assert (Hle : (length (dropna_values rest) <=? 1)%nat = true)
      by (apply Nat.leb_le; lia).
    rewrite Hle. reflexivity.
Qed.

Lemma fold_min_between (lo hi y0 : Z) (l : list Z) :
  (lo <= y0 <= hi)%Z -> (forall y, In y l -> (lo <= y <= hi)%Z) ->
  (lo <= fold_right Z.min y0 l <= hi)%Z.
Proof.
  intros H0. induction l as [| a t IH]; intros Hall; [exact H0 |].
  cbn [fold_right].
  assert (lo <= a <= hi)%Z by (apply Hall; left; reflexivity).
  assert (lo <= fold_right Z.min y0 t <= hi)%Z
    by (apply IH; intros y Hy; apply Hall; right; exact Hy).
  lia.
Qed.

Lemma fold_max_between (lo hi y0 : Z) (l : list Z) :
  (lo <= y0 <= hi)%Z -> (forall y, In y l -> (lo <= y <= hi)%Z) ->
  (lo <= fold_right Z.max y0 l <= hi)%Z.
Proof.
  intros H0. induction l as [| a t IH]; intros Hall; [exact H0 |].
  cbn [fold_right].
  assert (lo <= a <= hi)%Z by (apply Hall; left; reflexivity).
  assert (lo <= fold_right Z.max y0 t <= hi)%Z
    by (apply IH; intros y Hy; apply Hall; right; exact Hy).
  lia.
Qed.

Lemma year_bins_length (h : list bar) (lo hi : Z) :
  (forall b, In b h -> (lo <= year b <= hi)%Z) ->
  (length (year_bins h) <= Z.to_nat (hi - lo + 1))%nat.
Proof.
  intros Hall. destruct h as [| b t]; [cbn; lia |].
  unfold year_bins. rewrite length_map, length_seq.
  assert (Hb : (lo <= year b <= hi)%Z) by (apply Hall; left; reflexivity).
  assert (Ht : forall y, In y (map year t) -> (lo <= y <= hi)%Z).
  { intros y Hy. apply in_map_iff in Hy. destruct Hy as [b' [<- Hb']].
    apply Hall. right; exact Hb'. }
  pose proof (fold_min_between lo hi (year b) _ Hb Ht).
  pose proof (fold_max_between lo hi (year b) _ Hb Ht).
  lia.
Qed.

(** A history within two consecutive calendar years has at most one yearly
    return, so its volatility is nan: a defined volatility needs three
    calendar years. *)
Theorem volatility_needs_three_years :
  forall (h : list bar) (y0 : Z) (m : metrics),
    (forall b, In b h -> (y0 <= year b <= y0 + 1)%Z) ->
    calculate_metrics h = Ok m ->
    volatility m = NaN.
Proof.
  intros h y0 m Hall. unfold calculate_metrics.
  destruct (last_close h) as [v | e]; cbn [bind]; [| discriminate].
  intros H. injection H as <-. cbn [volatility].
  apply std_of_short_change. unfold resample_Y_last. rewrite length_map.
  pose proof (year_bins_length h y0 (y0 + 1) Hall) as Hlen.
  replace (y0 + 1 - y0 + 1)%Z with 2%Z in Hlen by lia.
  exact Hlen.
Qed.

Lemma volatility_needs_three_years_witness :
  exists m : metrics,
    calculate_metrics
      [ {| year := 2023; Close := Fin 100 |};
        {| year := 2023; Close := Fin 90 |};
        {| year := 2024; Close := Fin 120 |} ] = Ok m
    /\ volatility m = NaN.
Proof.
  eexists. split; [reflexivity |].
  apply (volatility_needs_three_years
           [ {| year := 2023; Close := Fin 100 |};
             {| year := 2023; Close := Fin 90 |};
             {| year := 2024; Close := Fin 120 |} ] 2023%Z).
  - intros b [<- | [<- | [<- | []]]]; cbn [year]; lia.
  - reflexivity.
Defined.

(** *** The average return over two calendar years *)

Lemma last_valid_snoc (l : list float) (p : R) :
  last_valid (l ++ [Fin p]) = Fin p.
Proof. unfold last_valid. rewrite fold_left_app. reflexivity. Qed.

Lemma filter_all {A : Type} (f : A -> bool) (l : list A) :
  (forall a, In a l -> f a = true) -> filter f l = l.
Proof.
  induction l as [| a t IH]; intros H; [reflexivity |].
  cbn [filter]. rewrite (H a) by (left; reflexivity).
  rewrite IH by (intros a' Ha'; apply H; right; exact Ha'). reflexivity.
Qed.

Lemma filter_none {A : Type} (f : A -> bool) (l : list A) :
  (forall a, In a l -> f a = false) -> filter f l = [].
Proof.
  induction l as [| a t IH]; intros H; [reflexivity |].
  cbn [filter]. rewrite (H a) by (left; reflexivity).
  apply IH. intros a' Ha'. apply H. right; exact Ha'.
Qed.

Lemma fold_min_floor (y0 : Z) (l : list Z) :
  (forall y, In y l -> (y0 <= y)%Z) -> fold_right Z.min y0 l = y0.
Proof.
  induction l as [| a t IH]; intros H; [reflexivity |].
  cbn [fold_right]. rewrite IH by (intros y Hy; apply H; right; exact Hy).
  apply Z.min_r. apply H. left; reflexivity.
Qed.

Lemma fold_max_attained (y0 hi : Z) (l : list Z) :
  (y0 <= hi)%Z -> In hi l -> (forall y, In y l -> (y <= hi)%Z) ->
  fold_right Z.max y0 l = hi.
Proof.
  intros H0 Hin Hall.
  assert (Hrange : (y0 <= fold_right Z.max y0 l <= hi)%Z).
  { clear Hin. induction l as [| a t IH]; [cbn; lia |].
    cbn [fold_right].
    assert (a <= hi)%Z by (apply Hall; left; reflexivity).
    assert (y0 <= fold_right Z.max y0 t <= hi)%Z
      by (apply IH; intros y Hy; apply Hall; right; exact Hy).
    lia. }
  assert (Hge : (hi <= fold_right Z.max y0 l)%Z).
  { clear Hall Hrange. induction l as [| a t IH]; [contradiction |].
    cbn [fold_right]. destruct Hin as [-> | Hin].
    - apply Z.le_max_l.
    - specialize (IH Hin). lia. }
  lia.
Qed.

(** For a history made of the rows of one calendar year followed by the rows
    of the next, each year ending on a finite close (p1, then p2, p1 not
    zero), the average annual return is the single yearly return
    p2 / p1 - 1. *)
Theorem two_year_average_return :
  forall (h1 h2 : list bar) (b1 b2 : bar) (y0 : Z) (p1 p2 : R),
    (forall b, In b (h1 ++ [b1]) -> year b = y0) ->
    (forall b, In b (h2 ++ [b2]) -> year b = (y0 + 1)%Z) ->
    Close b1 = Fin p1 -> Close b2 = Fin p2 -> p1 <> 0 ->
    exists m : metrics,
      calculate_metrics ((h1 ++ [b1]) ++ (h2 ++ [b2])) = Ok m
      /\ avg_annual_return m = Fin (p2 / p1 - 1).
Proof.
  intros h1 h2 b1 b2 y0 p1 p2 H1 H2 Hc1 Hc2 Hp1.
  set (h := (h1 ++ [b1]) ++ (h2 ++ [b2])).
  assert (Hne : h <> []).
  { unfold h. destruct h1; discriminate. }
  destruct (MetricsFacts.last_close_nonempty h Hne) as [v Hv].
  unfold calculate_metrics. rewrite Hv. cbn [bind].
  eexists. split; [reflexivity |]. cbn [avg_annual_return].
  assert (Hbins : year_bins h = [y0; (y0 + 1)%Z]).
  { unfold h. destruct (h1 ++ [b1]) as [| b t] eqn:E1.
    { destruct h1; discriminate E1. }
    cbn [app]. unfold year_bins.
    assert (Hb : year b = y0) by (apply H1; left; reflexivity).
    assert (Hyears : forall y, In y (map year (t ++ h2 ++ [b2])) ->
                               (y0 <= y <= y0 + 1)%Z).
    { intros y Hy. apply in_map_iff in Hy. destruct Hy as [b' [<- Hb']].
      apply in_app_or in Hb'. destruct Hb' as [Hb' | Hb'].
      - rewrite (H1 b') by (right; exact Hb'). lia.
      - rewrite (H2 b' Hb'). lia. }
    rewrite Hb.
    rewrite (fold_min_floor y0) by (intros y Hy; apply Hyears; exact Hy).
    rewrite (fold_max_attained y0 (y0 + 1)).
    - replace (y0 + 1 - y0 + 1)%Z with 2%Z by lia.
      change (Z.to_nat 2) with 2%nat. cbn [seq map Z.of_nat Pos.of_succ_nat].
      rewrite Z.add_0_r. reflexivity.
    - lia.
    - apply in_map_iff. exists b2. split.
      + apply H2. apply in_or_app. right; left; reflexivity.
      + apply in_or_app. right. apply in_or_app. right; left; reflexivity.
    - intros y Hy. apply Hyears in Hy. lia. }
  assert (Heqb1 : forall b, In b (h1 ++ [b1]) -> (year b =? y0)%Z = true)
    by (intros b Hb; apply Z.eqb_eq, H1, Hb).
  assert (Hneq1 : forall b, In b (h1 ++ [b1]) -> (year b =? y0 + 1)%Z = false)
    by (intros b Hb; apply Z.eqb_neq; rewrite (H1 b Hb); lia).
  assert (Heqb2 : forall b, In b (h2 ++ [b2]) -> (year b =? y0 + 1)%Z = true)
    by (intros b Hb; apply Z.eqb_eq, H2, Hb).
  assert (Hneq2 : forall b, In b (h2 ++ [b2]) -> (year b =? y0)%Z = false)
    by (intros b Hb; apply Z.eqb_neq; rewrite (H2 b Hb); lia).
  unfold resample_Y_last. rewrite Hbins. cbn [map]. unfold h.
  rewrite !(filter_app _ (h1 ++ [b1]) (h2 ++ [b2])).
  rewrite (filter_all _ (h1 ++ [b1]) Heqb1), (filter_none _ (h2 ++ [b2]) Hneq2).
  rewrite (filter_none _ (h1 ++ [b1]) Hneq1), (filter_all _ (h2 ++ [b2]) Heqb2).
  rewrite app_nil_r. cbn [app].
  rewrite !map_app. cbn [map]. rewrite Hc1, Hc2, !last_valid_snoc.
  unfold pct_change. cbn [ffill_from is_nan pct_from].
  unfold mean. cbn [fdiv fsub fneg fadd].
  rewrite (Reqb_false p1 0 Hp1).
  cbn [fsub fneg fadd dropna_values filter is_nan negb length fsum fold_left
       INR fdiv].
  rewrite (Reqb_false 1 0) by lra.
  f_equal. unfold Rminus. field. exact Hp1.
Qed.

Lemma two_year_average_return_witness :
  exists m : metrics,
    calculate_metrics
      (([ {| year := 2023; Close := Fin 90 |} ]
        ++ [ {| year := 2023; Close := Fin 100 |} ])
       ++ ([] ++ [ {| year := 2024; Close := Fin 120 |} ])) = Ok m
    /\ avg_annual_return m = Fin (120 / 100 - 1).
Proof.
  apply (two_year_average_return
           [ {| year := 2023; Close := Fin 90 |} ] []
           {| year := 2023; Close := Fin 100 |}
           {| year := 2024; Close := Fin 120 |} 2023%Z 100 120).
  - intros b [<- | [<- | []]]; reflexivity.
  - intros b [<- | []]; reflexivity.
  - reflexivity.
  - reflexivity.
  - lra.
Defined.

End MetricsMore.

(** * Properties of a run of the planner *)

Module AppFacts.
Import PersonalProj App.

Lemma calculate_metrics_nonempty (h : list bar) :
  h <> [] -> exists m : metrics, calculate_metrics h = Ok m.
Proof.
  intros Hne. destruct (MetricsFacts.last_close_nonempty h Hne) as [v Hv].
  unfold calculate_metrics. rewrite Hv. eexists; reflexivity.
Qed.

Lemma fill_index_metrics_empty_history (fetch : string -> list bar)
    (items : list (string * string)) (acc : list (string * metrics)) :
  (exists it, In it items /\ fetch (snd it) = []) ->
  fill_index_metrics fetch items acc = Raise IndexError.
Proof.
  revert acc. induction items as [| [name ticker] rest IH]; intros acc [it [Hin He]].
  - contradiction.
  - cbn [fill_index_metrics].
    destruct (fetch ticker) as [| b t] eqn:Ef.
    + reflexivity.
    + destruct (calculate_metrics_nonempty (b :: t) ltac:(discriminate))
        as [m Hm].
      rewrite Hm. cbn [bind]. apply IH.
      destruct Hin as [<- | Hin].
      * cbn [snd] in He. rewrite Ef in He. discriminate He.
      * exists it. split; assumption.
Qed.

(** When the download of any of the four indices comes back empty, the run
    ends in IndexError: nothing is recommended. *)
Theorem run_fails_on_empty_download :
  forall (fetch : string -> list bar) (goal : float) (days : Z)
         (ticker : string),
    In ticker (map snd INDICES) -> fetch ticker = [] ->
    run_cli_app fetch goal days = inl (Builtin IndexError).
Proof.
  intros fetch goal days ticker Hin He. unfold run_cli_app.
  rewrite (fill_index_metrics_empty_history fetch INDICES []).
  - reflexivity.
  - apply in_map_iff in Hin. destruct Hin as [it [<- Hit]].
    exists it. split; assumption.
Qed.

Lemma run_fails_on_empty_download_witness :
  run_cli_app
    (fun ticker => if String.eqb ticker "^DJI" then []
                   else [ {| year := 2024; Close := Fin 100 |} ])
    (Fin 100000) 1826
  = inl (Builtin IndexError).
Proof.
  apply (run_fails_on_empty_download _ (Fin 100000) 1826%Z "^DJI"%string).
  - right; right; left; reflexivity.
  - reflexivity.
Defined.

(** The dict filled from the four indices, when every download has rows. *)
Lemma fill_index_metrics_INDICES (fetch : string -> list bar) :
  (forall ticker, In ticker (map snd INDICES) -> fetch ticker <> []) ->
  exists m1 m2 m3 m4 : metrics,
    calculate_metrics (fetch "^GSPC"%string) = Ok m1
    /\ calculate_metrics (fetch "^IXIC"%string) = Ok m2
    /\ calculate_metrics (fetch "^DJI"%string) = Ok m3
    /\ calculate_metrics (fetch "^RUT"%string) = Ok m4
    /\ fill_index_metrics fetch INDICES []
       = Ok [ ("S&P 500"%string, m1); ("Nasdaq"%string, m2);
              ("Dow Jones"%string, m3); ("Russell 2000"%string, m4) ].
Proof.
  intros Hne.
  destruct (calculate_metrics_nonempty (fetch "^GSPC"%string)) as [m1 H1];
    [apply Hne; cbn; auto |].
  destruct (calculate_metrics_nonempty (fetch "^IXIC"%string)) as [m2 H2];
    [apply Hne; cbn; auto |].
  destruct (calculate_metrics_nonempty (fetch "^DJI"%string)) as [m3 H3];
    [apply Hne; cbn; auto |].
  destruct (calculate_metrics_nonempty (fetch "^RUT"%string)) as [m4 H4];
    [apply Hne; cbn; auto 6 |].
  exists m1, m2, m3, m4. repeat (split; [assumption |]).
  unfold INDICES. cbn [fill_index_metrics].
  rewrite H1, H2, H3, H4. reflexivity.
Qed.

(** When every download has rows, the run fails with nothing: it recommends
    one of the four indices, reports the metrics computed from that index's
    own history, and the investment needs are those of that index's average
    annual return. *)
Theorem run_recommends_a_listed_index :
  forall (fetch : string -> list bar) (goal : float) (days : Z),
    (forall ticker, In ticker (map snd INDICES) -> fetch ticker <> []) ->
    exists (name ticker : string) (m : metrics) (s : schedule),
      run_cli_app fetch goal days = inr (name, m, s)
      /\ In (name, ticker) INDICES
      /\ calculate_metrics (fetch ticker) = Ok m
      /\ calculate_investment_needs Numpy goal (years_to_goal days)
           (avg_annual_return m) = Ok s.
Proof.
  intros fetch goal days Hne.
  destruct (fill_index_metrics_INDICES fetch Hne)
    as [m1 [m2 [m3 [m4 [H1 [H2 [H3 [H4 Hfill]]]]]]]].
  unfold run_cli_app. rewrite Hfill. cbn [lift].
  destruct (RankFacts.recommended_index_returns
              [ ("S&P 500"%string, m1); ("Nasdaq"%string, m2);
                ("Dow Jones"%string, m3); ("Russell 2000"%string, m4) ]
              (years_to_goal days) ltac:(discriminate))
    as [name [Hsel Hin]].
  rewrite Hsel. cbn [lift].
  cbn [map fst] in Hin.
  destruct Hin as [<- | [<- | [<- | [<- | []]]]];
    cbn [subscript dict_get String.eqb Ascii.eqb Bool.eqb].
  - destruct (PlanMore.plan_numpy_returns goal (years_to_goal days)
                (avg_annual_return m1)) as [a [b [c Hs]]].
    rewrite Hs. cbn [lift].
    exists "S&P 500"%string, "^GSPC"%string, m1. eexists.
    split; [reflexivity |]. split; [cbn; auto |]. split; assumption.
  - destruct (PlanMore.plan_numpy_returns goal (years_to_goal days)
                (avg_annual_return m2)) as [a [b [c Hs]]].
    rewrite Hs. cbn [lift].
    exists "Nasdaq"%string, "^IXIC"%string, m2. eexists.
    split; [reflexivity |]. split; [cbn; auto |]. split; assumption.
  - destruct (PlanMore.plan_numpy_returns goal (years_to_goal days)
                (avg_annual_return m3)) as [a [b [c Hs]]].
    rewrite Hs. cbn [lift].
    exists "Dow Jones"%string, "^DJI"%string, m3. eexists.
    split; [reflexivity |]. split; [cbn; auto |]. split; assumption.
  - destruct (PlanMore.plan_numpy_returns goal (years_to_goal days)
                (avg_annual_return m4)) as [a [b [c Hs]]].
    rewrite Hs. cbn [lift].
    exists "Russell 2000"%string, "^RUT"%string, m4. eexists.
    split; [reflexivity |]. split; [cbn; auto 6 |]. split; assumption.
Qed.

Lemma run_recommends_a_listed_index_witness :
  exists (name ticker : string) (m : metrics) (s : schedule),
    run_cli_app (fun _ => [ {| year := 2024; Close := Fin 100 |} ])
      (Fin 100000) 1826 = inr (name, m, s)
    /\ In (name, ticker) INDICES
    /\ calculate_metrics [ {| year := 2024; Close := Fin 100 |} ] = Ok m
    /\ calculate_investment_needs Numpy (Fin 100000) (years_to_goal 1826)
         (avg_annual_return m) = Ok s.
Proof.
  apply (run_recommends_a_listed_index
           (fun _ => [ {| year := 2024; Close := Fin 100 |} ])
           (Fin 100000) 1826%Z).
  intros ticker _. discriminate.
Defined.

(** *** A first index with too short a history *)

Lemma score_of_nan_return (m : metrics) (y : float) :
  avg_annual_return m = NaN -> get_index_score m y = NaN.
Proof.
  intros Ha. rewrite RankFacts.score_factor, Ha. reflexivity.
Qed.

Lemma plan_of_nan_return (goal : float) (days : Z) :
  (0 < days)%Z ->
  calculate_investment_needs Numpy goal (years_to_goal days) NaN
  = Ok nan_schedule.
Proof.
  intros Hd. unfold calculate_investment_needs, years_to_goal, float_pow.
  cbn [fadd feq].
  assert (Hy : IZR days / 365.25 <> 0).
  { apply (IZR_lt 0 days) in Hd. apply Rgt_not_eq.
    apply Rdiv_lt_0_compat; lra. }
  rewrite (Reqb_false _ 0 Hy).
  cbn [bind pynum_sub fsub fadd pynum_div float_div].
  rewrite MetricsMore.fdiv_nan_r. reflexivity.
Qed.

(** When the history of the first index, S&P 500, lies within one calendar
    year (and every download has rows), the run recommends S&P 500 whatever
    the other three histories are, and the investment needs it reports are
    three nan, for every goal and every target date in the future. *)
Theorem run_on_short_first_history :
  forall (fetch : string -> list bar) (goal : float) (days y0 : Z),
    (forall ticker, In ticker (map snd INDICES) -> fetch ticker <> []) ->
    (forall b, In b (fetch "^GSPC"%string) -> year b = y0) ->
    (0 < days)%Z ->
    exists m : metrics,
      run_cli_app fetch goal days = inr ("S&P 500"%string, m, nan_schedule)
      /\ avg_annual_return m = NaN.
Proof.
  intros fetch goal days y0 Hne Hyear Hdays.
  destruct (fill_index_metrics_INDICES fetch Hne)
    as [m1 [m2 [m3 [m4 [H1 [H2 [H3 [H4 Hfill]]]]]]]].
  destruct (MetricsFacts.metrics_single_year (fetch "^GSPC"%string) y0)
    as [m [Hm [Havg _]]]; [apply Hne; cbn; auto | exact Hyear |].
  assert (m = m1) by congruence. subst m.
  exists m1. split; [| exact Havg].
  assert (Hsel : recommended_index
                   [ ("S&P 500"%string, m1); ("Nasdaq"%string, m2);
                     ("Dow Jones"%string, m3); ("Russell 2000"%string, m4) ]
                   (years_to_goal days) = Ok "S&P 500"%string).
  { apply (RankFacts.recommended_index_first []
             [ ("Nasdaq"%string, m2); ("Dow Jones"%string, m3);
               ("Russell 2000"%string, m4) ]
             ("S&P 500"%string, m1) (years_to_goal days)).
    - intros c' [].
    - intros c' _. cbn [snd]. rewrite (score_of_nan_return m1 _ Havg).
      apply RankMore.fgt_nan_r. }
  unfold run_cli_app. rewrite Hfill. cbn [lift]. rewrite Hsel.
  cbn [lift fst subscript dict_get String.eqb Ascii.eqb Bool.eqb].
  rewrite Havg, (plan_of_nan_return goal days Hdays). reflexivity.
Qed.

Lemma run_on_short_first_history_witness :
  exists m : metrics,
    run_cli_app
      (fun ticker =>
         if String.eqb ticker "^GSPC"
         then [ {| year := 2024; Close := Fin 100 |};
                {| year := 2024; Close := Fin 110 |} ]
         else [ {| year := 2022; Close := Fin 50 |};
                {| year := 2023; Close := Fin 60 |};
                {| year := 2024; Close := Fin 90 |} ])
      (Fin 100000) 1826
    = inr ("S&P 500"%string, m, nan_schedule)
    /\ avg_annual_return m = NaN.
Proof.
  apply (run_on_short_first_history _ (Fin 100000) 1826%Z 2024%Z).
  - intros ticker _. destruct (String.eqb ticker "^GSPC"); discriminate.
  - intros b [<- | [<- | []]]; reflexivity.
  - lia.
Defined.

End AppFacts.

(** * Further properties of the returns, the volatility and the forecast *)

Module ScriptMore.
Import Script.

(** *** The returns *)

Lemma map_fst_combine_eq {A B : Type} (l : list A) (l' : list B) :
  length l = length l' -> map fst (combine l l') = l.
Proof.
  revert l'. induction l as [| a t IH]; intros [| b t'] Hlen;
    try reflexivity; try discriminate Hlen.
  cbn [combine map fst]. rewrite IH by (injection Hlen as H; exact H).
  reflexivity.
Qed.

Lemma map_snd_combine_eq {A B : Type} (l : list A) (l' : list B) :
  length l = length l' -> map snd (combine l l') = l'.
Proof.
  revert l'. induction l as [| a t IH]; intros [| b t'] Hlen;
    try reflexivity; try discriminate Hlen.
  cbn [combine map snd]. rewrite IH by (injection Hlen as H; exact H).
  reflexivity.
Qed.

Lemma returns_columns (df : list quote) :
  map r_date (calculate_returns df) = map q_date df
  /\ map r_price (calculate_returns df) = map q_price df
  /\ map Return (calculate_returns df)
     = PersonalProj.pct_change (map q_price df).
Proof.
  assert (Hlen : length df
                 = length (PersonalProj.pct_change (map q_price df)))
    by (rewrite MetricsMore.pct_change_length, length_map; reflexivity).
  unfold calculate_returns. rewrite !map_map. cbn [r_date r_price Return].
  split; [| split].
  - rewrite <- (map_map fst q_date), (map_fst_combine_eq _ _ Hlen).
    reflexivity.
  - rewrite <- (map_map fst q_price), (map_fst_combine_eq _ _ Hlen).
    reflexivity.
  - apply (map_snd_combine_eq _ _ Hlen).
Qed.

Lemma pct_from_at (before after : list float) (p1 p2 : R)
    (prev prev' : float) :
  p1 <> 0 ->
  nth (S (length before))
      (PersonalProj.pct_from prev
         (PersonalProj.ffill_from prev'
            (before ++ Fin p1 :: Fin p2 :: after)))
      NaN
  = Fin (p2 / p1 - 1).
Proof.
  intros Hp1. revert prev prev'.
  induction before as [| b t IH]; intros prev prev'.
  - cbn [app length PersonalProj.ffill_from PersonalProj.pct_from
         is_nan nth fdiv fsub fneg fadd].
    rewrite (Reqb_false p1 0 Hp1). reflexivity.
  - cbn [app length PersonalProj.ffill_from PersonalProj.pct_from nth].
    apply IH.
Qed.

(** [calculate_returns] keeps every row with its date and price, and the
    return of the first row is null; on finite prices the return of a later
    row is its price over the previous one (not zero), minus one. *)
Theorem returns_keep_rows :
  (forall df : list quote,
      map r_date (calculate_returns df) = map q_date df
      /\ map r_price (calculate_returns df) = map q_price df)
  /\ (forall (q : quote) (df : list quote),
         exists rest : list float,
           map Return (calculate_returns (q :: df)) = NaN :: rest
           /\ length rest = length df)
  /\ (forall (before after : list quote) (q1 q2 : quote) (p1 p2 : R),
         q_price q1 = Fin p1 -> q_price q2 = Fin p2 -> p1 <> 0 ->
         nth (S (length before))
             (map Return (calculate_returns (before ++ q1 :: q2 :: after)))
             NaN
         = Fin (p2 / p1 - 1)).
Proof.
  split; [| split].
  - intros df. destruct (returns_columns df) as [H1 [H2 _]]. split; assumption.
  - intros q df. destruct (returns_columns (q :: df)) as [_ [_ H3]].
    rewrite H3. cbn [map].
    destruct (MetricsMore.pct_change_head (q_price q) (map q_price df))
      as [rest [Hr Hl]].
    exists rest. split; [exact Hr |]. rewrite Hl. apply length_map.
  - intros before after q1 q2 p1 p2 H1 H2 Hp1.
    destruct (returns_columns (before ++ q1 :: q2 :: after)) as [_ [_ H3]].
    rewrite H3. rewrite map_app. cbn [map]. rewrite H1, H2.
    unfold PersonalProj.pct_change.
    rewrite <- (length_map q_price before).
    apply pct_from_at. exact Hp1.
Qed.

(** *** The volatility *)

Lemma annualisation_positive : 0 < Rpower 252 (1 / 2).
Proof. unfold Rpower. apply exp_pos. Qed.

Lemma fmul_not_negative (a : float) (c : R) :
  0 < c -> flt a (Fin 0) = false -> flt (fmul a (Fin c)) (Fin 0) = false.
Proof.
  intros Hc. destruct a as [x | | |]; cbn [fmul flt]; try reflexivity;
    try discriminate.
  - unfold Rltb. destruct (Rlt_dec x 0); [discriminate |]. intros _.
    destruct (Rlt_dec (x * c) 0); [exfalso; nra | reflexivity].
  - intros _. unfold scale_inf. rewrite (Rltb_true 0 c Hc). reflexivity.
Qed.

(** The volatility is never below zero, whatever the frame. *)
Theorem script_volatility_not_negative :
  forall df : list ret_row, flt (calculate_volatility df) (Fin 0) = false.
Proof.
  intros df. unfold calculate_volatility.
  destruct (forallb is_nan (map Return df)).
  - cbn [flt]. apply Rltb_false. lra.
  - apply fmul_not_negative; [apply annualisation_positive |].
    apply MetricsMore.std_not_negative.
Qed.

Lemma fmul_nan_l (a : float) : fmul NaN a = NaN.
Proof. destruct a; reflexivity. Qed.

(** A series of one or two price points never has a volatility: the result
    is nan, or the 0.0 of an entirely null column; for two finite prices, the
    first not zero, it is nan. *)
Theorem volatility_needs_three_points :
  (forall df : list quote,
      (length df <= 2)%nat ->
      calculate_volatility (calculate_returns df) = NaN
      \/ calculate_volatility (calculate_returns df) = Fin 0)
  /\ (forall (q1 q2 : quote) (p1 p2 : R),
         q_price q1 = Fin p1 -> q_price q2 = Fin p2 -> p1 <> 0 ->
         calculate_volatility (calculate_returns [q1; q2]) = NaN).
Proof.
  split.
  - intros df Hlen. unfold calculate_volatility.
    destruct (returns_columns df) as [_ [_ H3]]. rewrite H3.
    destruct (forallb is_nan (PersonalProj.pct_change (map q_price df)));
      [right; reflexivity | left].
    rewrite MetricsMore.std_of_short_change
      by (rewrite length_map; exact Hlen).
    apply fmul_nan_l.
  - intros q1 q2 p1 p2 H1 H2 Hp1. unfold calculate_volatility.
    destruct (returns_columns [q1; q2]) as [_ [_ H3]]. rewrite H3.
    cbn [map]. rewrite H1, H2. unfold PersonalProj.pct_change.
    cbn [PersonalProj.ffill_from PersonalProj.pct_from is_nan fdiv fsub fneg
         fadd].
    rewrite (Reqb_false p1 0 Hp1). cbn [forallb is_nan andb].
    reflexivity.
Qed.

Lemma volatility_needs_three_points_witness :
  calculate_volatility
    (calculate_returns [ {| q_date := 100; q_price := Fin 10 |};
                         {| q_date := 101; q_price := Fin 12 |} ])
  = NaN.
Proof.
  apply (proj2 volatility_needs_three_points _ _ 10 12);
    [reflexivity | reflexivity | lra].
Defined.

(** *** A flat series *)

Lemma ffill_from_flat (prev : float) (c : R) (k : nat) :
  PersonalProj.ffill_from prev (repeat (Fin c) k) = repeat (Fin c) k.
Proof.
  revert prev. induction k as [| k IH]; intros prev; [reflexivity |].
  cbn [repeat PersonalProj.ffill_from is_nan]. rewrite IH. reflexivity.
Qed.

Lemma pct_from_flat (c : R) (k : nat) :
  c <> 0 ->
  PersonalProj.pct_from (Fin c) (repeat (Fin c) k) = repeat (Fin 0) k.
Proof.
  intros Hc. induction k as [| k IH]; [reflexivity |].
  cbn [repeat PersonalProj.pct_from fdiv].
  rewrite (Reqb_false c 0 Hc), IH. cbn [fsub fneg fadd].
  replace (c / c + - (1)) with 0 by (field; exact Hc). reflexivity.
Qed.

Lemma fsum_zeros (a : R) (k : nat) :
  fold_left fadd (repeat (Fin 0) k) (Fin a) = Fin a.
Proof.
  induction k as [| k IH]; [reflexivity |].
  cbn [repeat fold_left fadd]. replace (a + 0) with a by ring. exact IH.
Qed.

Lemma dropna_zeros (k : nat) :
  PersonalProj.dropna_values (repeat (Fin 0) k) = repeat (Fin 0) k.
Proof.
  induction k as [| k IH]; [reflexivity |].
  unfold PersonalProj.dropna_values in *.
  cbn [repeat filter is_nan negb]. rewrite IH. reflexivity.
Qed.

Lemma std_zeros (k : nat) :
  (2 <= k)%nat -> PersonalProj.std (NaN :: repeat (Fin 0) k) = Fin 0.
Proof.
  intros Hk. unfold PersonalProj.std.
  assert (Hd : PersonalProj.dropna_values (NaN :: repeat (Fin 0) k)
               = repeat (Fin 0) k) by apply dropna_zeros.
  rewrite Hd, repeat_length.
  assert (Hle : (k <=? 1)%nat = false) by (apply Nat.leb_gt; lia).
  rewrite Hle. unfold PersonalProj.fsum. rewrite fsum_zeros.
  assert (Hk0 : INR k <> 0) by (apply not_0_INR; lia).
  assert (Hk1 : INR (k - 1) <> 0) by (apply not_0_INR; lia).
  cbn [fdiv]. rewrite (Reqb_false (INR k) 0 Hk0).
  rewrite map_repeat. cbn [fsub fneg fadd fmul].
  replace ((0 + - (0 / INR k)) * (0 + - (0 / INR k))) with 0
    by (field; exact Hk0).
  rewrite fsum_zeros. cbn [fdiv]. rewrite (Reqb_false (INR (k - 1)) 0 Hk1).
  replace (0 / INR (k - 1)) with 0 by (field; exact Hk1).
  cbn [fsqrt]. rewrite (Rltb_false 0 0) by lra. rewrite sqrt_0. reflexivity.
Qed.

(** A series of at least three points that all have the same price, not
    zero, has the volatility 0. *)
Theorem flat_series_has_no_volatility :
  forall (df : list quote) (c : R),
    (3 <= length df)%nat -> c <> 0 ->
    (forall q, In q df -> q_price q = Fin c) ->
    calculate_volatility (calculate_returns df) = Fin 0.
Proof.
  intros df c Hlen Hc Hflat.
  assert (Hp : map q_price df = repeat (Fin c) (length df)).
  { clear Hlen. induction df as [| q t IH]; [reflexivity |].
    cbn [map length repeat]. rewrite (Hflat q) by (left; reflexivity).
    rewrite IH by (intros q' Hq'; apply Hflat; right; exact Hq').
    reflexivity. }
  destruct (returns_columns df) as [_ [_ H3]].
  unfold calculate_volatility. rewrite H3, Hp.
  destruct (length df) as [| k] eqn:En; [lia |].
  assert (Hret : PersonalProj.pct_change (repeat (Fin c) (S k))
                 = NaN :: repeat (Fin 0) k).
  { unfold PersonalProj.pct_change. rewrite ffill_from_flat.
    cbn [repeat PersonalProj.pct_from fdiv fsub fneg fadd].
    rewrite (pct_from_flat c k Hc). reflexivity. }
  rewrite Hret.
  destruct k as [| k']; [lia |].
  cbn [repeat forallb is_nan andb].
  change (Fin 0 :: repeat (Fin 0) k') with (repeat (Fin 0) (S k')).
  rewrite std_zeros by lia.
  cbn [fmul]. f_equal. ring.
Qed.

Lemma flat_series_has_no_volatility_witness :
  calculate_volatility
    (calculate_returns [ {| q_date := 100; q_price := Fin 50 |};
                         {| q_date := 101; q_price := Fin 50 |};
                         {| q_date := 102; q_price := Fin 50 |} ])
  = Fin 0.
Proof.
  apply (flat_series_has_no_volatility _ 50).
  - cbn. lia.
  - lra.
  - intros q [<- | [<- | [<- | []]]]; reflexivity.
Defined.

(** *** The forecast *)

(** With fewer than two rows free of nulls the forecast is empty, whatever
    the number of days asked for and whatever the prices. *)
Theorem forecast_of_short_frame :
  forall (A : Type) (RowA : Row A) (df : list A) (days : Z),
    (length (filter (fun r => negb (has_null r)) df) < 2)%nat ->
    linear_regression_forecast df days = Ok [].
Proof.
  intros A RowA df days Hlen. unfold linear_regression_forecast.
  destruct (filter (fun r => negb (has_null r)) df) as [| r0 t];
    [reflexivity |].
  apply Nat.ltb_lt in Hlen. rewrite Hlen. reflexivity.
Qed.

Lemma forecast_of_short_frame_witness :
  linear_regression_forecast
    [ {| q_date := 100; q_price := NaN |};
      {| q_date := 101; q_price := PInf |};
      {| q_date := 102; q_price := NaN |} ] (-3)
  = Ok [].
Proof.
  apply (forecast_of_short_frame quote quote_Row). cbn. lia.
Defined.

(** With at least two rows free of nulls, finite prices and a positive
    number of days, the forecast has exactly one point per day, dated on the
    consecutive days after the date of the last row that is free of nulls,
    however the observed dates are spaced. *)
Theorem forecast_dates :
  forall (A : Type) (RowA : Row A) (df : list A) (ys : list R) (k : nat),
    (2 <= length (filter (fun r => negb (has_null r)) df))%nat ->
    finite_values (map Price (filter (fun r => negb (has_null r)) df))
    = Some ys ->
    (0 < k)%nat ->
    exists out : list (Z * float),
      linear_regression_forecast df (Z.of_nat k) = Ok out
      /\ length out = k
      /\ map fst out
         = map (fun j =>
                  (last (map Date (filter (fun r => negb (has_null r)) df)) 0
                   + 1 + Z.of_nat j)%Z)
               (seq 0 k).
Proof.
  intros A RowA df ys k Hlen Hfin Hk. unfold linear_regression_forecast.
  destruct (filter (fun r => negb (has_null r)) df) as [| r0 t] eqn:Ef;
    [cbn in Hlen; lia |].
  assert (Hlt : (length (r0 :: t) <? 2)%nat = false)
    by (apply Nat.ltb_ge; exact Hlen).
  rewrite Hlt, Hfin.
  assert (Hdays : (Z.of_nat k <=? 0)%Z = false) by (apply Z.leb_gt; lia).
  rewrite Hdays, Nat2Z.id.
  eexists. split; [reflexivity |].
  assert (Hl : length (map (fun i : nat =>
                              (Date (last (r0 :: t) r0) + 1 + Z.of_nat i)%Z)
                           (seq 0 k))
               = length (map (fun d : nat =>
                                Fin (predict
                                       (fit (map INR (seq 0 (length (r0 :: t))))
                                            ys) (INR d)))
                             (seq (length (r0 :: t)) k)))
    by (rewrite !length_map, !length_seq; reflexivity).
  split.
  - rewrite length_combine, <- Hl, length_map, length_seq. apply Nat.min_id.
  - rewrite (map_fst_combine_eq _ _ Hl).
    rewrite (ScriptFacts.last_map Date (r0 :: t) r0 0%Z) by discriminate.
    reflexivity.
Qed.

Lemma forecast_dates_witness :
  exists out : list (Z * float),
    linear_regression_forecast
      [ {| q_date := 100; q_price := Fin 10 |};
        {| q_date := 107; q_price := NaN |};
        {| q_date := 130; q_price := Fin 7 |};
        {| q_date := 131; q_price := NaN |} ] (Z.of_nat 3) = Ok out
    /\ length out = 3%nat
    /\ map fst out
       = map (fun j => (last [100; 130] 0 + 1 + Z.of_nat j)%Z) (seq 0 3).
Proof.
  apply (forecast_dates quote quote_Row
           [ {| q_date := 100; q_price := Fin 10 |};
             {| q_date := 107; q_price := NaN |};
             {| q_date := 130; q_price := Fin 7 |};
             {| q_date := 131; q_price := NaN |} ] [10; 7] 3).
  - cbn. lia.
  - reflexivity.
  - lia.
Defined.

(** *** The fitted line is the least-squares line *)

Section LeastSquares.

Variable pts : list (R * R).

Let n : R := INR (length pts).
Let Sx : R := Rsum (map fst pts).
Let Sy : R := Rsum (map snd pts).
Let Sxy : R := Rsum (map (fun p => fst p * snd p) pts).
Let Sxx : R := Rsum (map (fun p => fst p * fst p) pts).

Lemma residual_sum (a b : R) :
  Rsum (map (fun p => snd p - (fst p * a + b)) pts) = Sy - a * Sx - b * n.
Proof.
  subst n Sx Sy. induction pts as [| p t IH].
  - cbn. ring.
  - cbn [map Rsum fold_right length]. unfold Rsum in IH. rewrite IH.
    rewrite S_INR. ring.
Qed.

Lemma residual_moment (a b : R) :
  Rsum (map (fun p => (snd p - (fst p * a + b)) * fst p) pts)
  = Sxy - a * Sxx - b * Sx.
Proof.
  subst Sx Sxy Sxx. induction pts as [| p t IH].
  - cbn. ring.
  - cbn [map Rsum fold_right]. unfold Rsum in IH. rewrite IH. ring.
Qed.

Lemma centred_product (xm ym : R) :
  Rsum (map (fun p => (fst p - xm) * (snd p - ym)) pts)
  = Sxy - xm * Sy - ym * Sx + n * xm * ym.
Proof.
  subst n Sx Sy Sxy. induction pts as [| p t IH].
  - cbn. ring.
  - cbn [map Rsum fold_right length]. unfold Rsum in IH. rewrite IH.
    rewrite S_INR. ring.
Qed.

Lemma centred_square (xm : R) :
  Rsum (map (fun p => (fst p - xm) * (fst p - xm)) pts)
  = Sxx - 2 * xm * Sx + n * xm * xm.
Proof.
  subst n Sx Sxx. induction pts as [| p t IH].
  - cbn. ring.
  - cbn [map Rsum fold_right length]. unfold Rsum in IH. rewrite IH.
    rewrite S_INR. ring.
Qed.

Lemma squared_error_shift (a b c d : R) :
  Rsum (map (fun p => (snd p - (fst p * c + d)) * (snd p - (fst p * c + d)))
            pts)
  = Rsum (map (fun p => (snd p - (fst p * a + b)) * (snd p - (fst p * a + b)))
              pts)
    + 2 * (a - c)
      * Rsum (map (fun p => (snd p - (fst p * a + b)) * fst p) pts)
    + 2 * (b - d) * Rsum (map (fun p => snd p - (fst p * a + b)) pts)
    + Rsum (map (fun p => ((a - c) * fst p + (b - d))
                          * ((a - c) * fst p + (b - d))) pts).
Proof.
  induction pts as [| p t IH].
  - cbn. ring.
  - cbn [map Rsum fold_right]. unfold Rsum in IH. rewrite IH. ring.
Qed.

Lemma shift_square_nonneg (u v : R) :
  0 <= Rsum (map (fun p => (u * fst p + v) * (u * fst p + v)) pts).
Proof.
  induction pts as [| p t IH].
  - cbn. lra.
  - cbn [map Rsum fold_right]. unfold Rsum in IH.
    pose proof (Rle_0_sqr (u * fst p + v)) as Hsq. unfold Rsqr in Hsq. lra.
Qed.

End LeastSquares.

Lemma fit_least_squares (xs ys : list R) (c d : R) :
  length xs = length ys ->
  Rsum (map (fun x => (x - Rsum xs / INR (length xs))
                      * (x - Rsum xs / INR (length xs))) xs) <> 0 ->
  squared_error (fit xs ys) xs ys <= squared_error (c, d) xs ys.
Proof.
  intros Hlen Hsxx.
  set (pts := combine xs ys).
  assert (Hfst : map fst pts = xs) by (apply map_fst_combine_eq; exact Hlen).
  assert (Hsnd : map snd pts = ys) by (apply map_snd_combine_eq; exact Hlen).
  assert (Hn : length pts = length xs).
  { unfold pts. rewrite length_combine, <- Hlen. apply Nat.min_id. }
  assert (Hn0 : INR (length xs) <> 0).
  { apply not_0_INR. intros H0. apply Hsxx.
    destruct xs; [reflexivity | discriminate H0]. }
  unfold squared_error, fit, predict. cbv zeta. cbn [fst snd]. fold pts.
  set (nn := INR (length xs)) in *.
  set (xm := Rsum xs / nn) in *.
  set (ym := Rsum ys / nn).
  assert (HSx : Rsum (map fst pts) = nn * xm)
    by (rewrite Hfst; unfold xm; field; exact Hn0).
  assert (HSy : Rsum (map snd pts) = nn * ym)
    by (rewrite Hsnd; unfold ym; field; exact Hn0).
  assert (Hxx : Rsum (map (fun x => (x - xm) * (x - xm)) xs)
                = Rsum (map (fun p => (fst p - xm) * (fst p - xm)) pts)).
  { rewrite <- Hfst at 1. rewrite map_map. reflexivity. }
  rewrite Hxx in *.
  set (sxy := Rsum (map (fun xy => (fst xy - xm) * (snd xy - ym)) pts)).
  set (sxx := Rsum (map (fun p => (fst p - xm) * (fst p - xm)) pts)) in *.
  set (a := sxy / sxx). set (b := ym - xm * a).
  rewrite (squared_error_shift pts a b c d).
  assert (Ha : a * sxx = sxy) by (unfold a; field; exact Hsxx).
  assert (He : Rsum (map (fun p => snd p - (fst p * a + b)) pts) = 0).
  { rewrite residual_sum, HSx, HSy, Hn. fold nn. unfold b. ring. }
  assert (Hm : Rsum (map (fun p => (snd p - (fst p * a + b)) * fst p) pts) = 0).
  { rewrite residual_moment.
    pose proof (centred_product pts xm ym) as Hp. fold sxy in Hp.
    pose proof (centred_square pts xm) as Hq. fold sxx in Hq.
    rewrite HSx, HSy, Hn in Hp. rewrite HSx, Hn in Hq. fold nn in Hp, Hq.
    rewrite HSx. unfold b.
    replace (Rsum (map (fun p => fst p * snd p) pts)
             - a * Rsum (map (fun p => fst p * fst p) pts)
             - (ym - xm * a) * (nn * xm))
      with (sxy - a * sxx) by (rewrite Hp, Hq; ring).
    lra. }
  rewrite He, Hm.
  pose proof (shift_square_nonneg pts (a - c) (b - d)) as Hpos.
  lra.
Qed.

(** The line the forecast extrapolates is the least-squares line of the
    prices against their index positions 0, 1, ..., n-1: no other line has a
    smaller sum of squared residuals. *)
Theorem forecast_line_is_least_squares :
  forall (ys : list R) (c d : R),
    (2 <= length ys)%nat ->
    squared_error (fit (map INR (seq 0 (length ys))) ys)
                  (map INR (seq 0 (length ys))) ys
    <= squared_error (c, d) (map INR (seq 0 (length ys))) ys.
Proof.
  intros ys c d Hlen.
  destruct (ScriptFacts.days_spread (length ys) Hlen) as [_ Hsxx].
  apply fit_least_squares.
  - rewrite length_map, length_seq. reflexivity.
  - exact Hsxx.
Qed.

Lemma forecast_line_is_least_squares_witness :
  squared_error (fit (map INR (seq 0 3)) [10; 13; 11]) (map INR (seq 0 3))
                [10; 13; 11]
  <= squared_error (0, 11) (map INR (seq 0 3)) [10; 13; 11].
Proof.
  apply (forecast_line_is_least_squares [10; 13; 11] 0 11). cbn. lia.
Defined.

(** *** The forecast as the program calls it, after [calculate_returns] *)

Lemma forecast_affine_rows {A : Type} `{Row A} (df valid : list A)
    (a b : R) (k : nat) :
  filter (fun r => negb (has_null r)) df = valid ->
  (2 <= length valid)%nat -> (0 < k)%nat ->
  map Price valid
  = map (fun i => Fin (a + b * INR i)) (seq 0 (length valid)) ->
  linear_regression_forecast df (Z.of_nat k)
  = Ok (map (fun j => ((last (map Date valid) 0 + 1 + Z.of_nat j)%Z,
                       Fin (a + b * INR (length valid + j))))
            (seq 0 k)).
Proof.
  intros Hf Hlen Hk Hprices.
  assert (Hys : map Price valid
                = map Fin (map (fun x => a + b * x)
                               (map INR (seq 0 (length valid))))).
  { rewrite Hprices, !map_map. reflexivity. }
  unfold linear_regression_forecast. rewrite Hf.
  destruct valid as [| first rest] eqn:Ev; [cbn in Hlen; lia |].
  cbv beta iota. rewrite <- Ev in *.
  set (n := length valid) in *.
  set (Days := map INR (seq 0 n)) in *.
  assert (Hlt : (n <? 2)%nat = false) by (apply Nat.ltb_ge; exact Hlen).
  rewrite Hlt, Hys, ScriptFacts.finite_values_Fin.
  destruct (ScriptFacts.days_spread n Hlen) as [Hne Hsxx].
  fold Days in Hne, Hsxx.
  rewrite (ScriptFacts.fit_affine a b Days Hne Hsxx).
  assert (Hdays : (Z.of_nat k <=? 0)%Z = false) by (apply Z.leb_gt; lia).
  rewrite Hdays, Nat2Z.id.
  rewrite (ScriptFacts.seq_from_zero n k), map_map,
    ScriptFacts.combine_map_both.
  f_equal. apply map_ext. intros j.
  rewrite (ScriptFacts.last_map Date valid first 0%Z)
    by (rewrite Ev; discriminate).
  unfold predict. cbn [fst snd]. f_equal. f_equal. ring.
Qed.

Lemma pct_from_finite (p : R) (ps : list R) :
  p <> 0 -> (forall x, In x ps -> x <> 0) ->
  exists rs : list R,
    length rs = length ps
    /\ PersonalProj.pct_from (Fin p) (map Fin ps) = map Fin rs.
Proof.
  revert p. induction ps as [| x t IH]; intros p Hp Hall.
  - exists []. split; reflexivity.
  - destruct (IH x) as [rs [Hl Hr]].
    + apply Hall. left; reflexivity.
    + intros x' Hx'. apply Hall. right; exact Hx'.
    + exists ((x / p + - (1)) :: rs). split; [cbn; rewrite Hl; reflexivity |].
      cbn [map PersonalProj.pct_from fdiv]. rewrite (Reqb_false p 0 Hp).
      cbn [fsub fneg fadd]. rewrite Hr. reflexivity.
Qed.

Lemma ffill_from_finite (prev : float) (ps : list R) :
  PersonalProj.ffill_from prev (map Fin ps) = map Fin ps.
Proof.
  revert prev. induction ps as [| x t IH]; intros prev; [reflexivity |].
  cbn [map PersonalProj.ffill_from is_nan]. rewrite IH. reflexivity.
Qed.

Lemma returns_of_finite_prices (q0 : quote) (rest : list quote) (p0 : R)
    (ps : list R) :
  q_price q0 = Fin p0 -> map q_price rest = map Fin ps ->
  p0 <> 0 -> (forall x, In x ps -> x <> 0) ->
  exists rs : list R,
    length rs = length rest
    /\ calculate_returns (q0 :: rest)
       = {| r_date := q_date q0; r_price := Fin p0; Return := NaN |}
         :: map with_return (combine rest rs).
Proof.
  intros H0 Hrest Hp0 Hall.
  destruct (pct_from_finite p0 ps Hp0 Hall) as [rs [Hl Hr]].
  exists rs. split.
  - rewrite Hl, <- (length_map Fin ps), <- Hrest, length_map. reflexivity.
  - unfold calculate_returns, PersonalProj.pct_change.
    cbn [map PersonalProj.ffill_from PersonalProj.pct_from].
    rewrite H0. cbn [is_nan]. rewrite Hrest, ffill_from_finite, Hr.
    cbn [combine map fst snd]. rewrite H0. f_equal.
    clear Hr Hl Hrest. revert rs. induction rest as [| q t IHt]; intros rs.
    + reflexivity.
    + destruct rs as [| r rs']; [reflexivity |].
      cbn [map combine]. rewrite IHt. reflexivity.
Qed.

Lemma dropna_with_return (rest : list quote) (ps rs : list R) :
  map q_price rest = map Fin ps ->
  filter (fun r => negb (has_null r)) (map with_return (combine rest rs))
  = map with_return (combine rest rs).
Proof.
  intros Hrest. apply MetricsMore.filter_all.
  intros r Hr. apply in_map_iff in Hr. destruct Hr as [[q x] [<- Hin]].
  apply in_combine_l in Hin.
  assert (Hq : exists p, q_price q = Fin p).
  { clear rs. revert ps Hrest. induction rest as [| q' t IH]; intros ps Hrest;
      [contradiction |].
    destruct ps as [| p ps']; [discriminate Hrest |].
    cbn [map] in Hrest. injection Hrest as Hq' Ht.
    destruct Hin as [-> | Hin]; [exists p; exact Hq' | exact (IH Hin ps' Ht)]. }
  destruct Hq as [p Hp].
  cbn [has_null ret_row_Row with_return r_price Return fst snd].
  rewrite Hp. reflexivity.
Qed.

(** On the program's call path the frame has been through
    [calculate_returns], and [dropna] removes its first row.  For a series
    of at least 3 points whose price at index position i is a + b * i, none
    zero, the forecast is nonetheless the one of the series itself: k points
    continuing the progression at the positions n, n+1, ... on the days
    after the last date. *)
Theorem forecast_after_returns_affine :
  forall (df : list quote) (a b : R) (k : nat),
    (3 <= length df)%nat -> (0 < k)%nat ->
    map q_price df = map (fun i => Fin (a + b * INR i)) (seq 0 (length df)) ->
    (forall i : nat, (i < length df)%nat -> a + b * INR i <> 0) ->
    linear_regression_forecast (calculate_returns df) (Z.of_nat k)
    = Ok (map (fun j => ((last (map q_date df) 0 + 1 + Z.of_nat j)%Z,
                         Fin (a + b * INR (length df + j))))
              (seq 0 k)).
Proof.
  intros df a b k Hlen Hk Hprices Hnz.
  destruct df as [| q0 rest]; [cbn in Hlen; lia |].
  cbn [length] in *.
  cbn [seq map] in Hprices. injection Hprices as H0 Hrest.
  rewrite <- seq_shift, map_map in Hrest.
  set (ps := map (fun i => a + b * INR (S i)) (seq 0 (length rest))).
  assert (Hps : map q_price rest = map Fin ps)
    by (unfold ps; rewrite map_map; exact Hrest).
  destruct (returns_of_finite_prices q0 rest (a + b * INR 0) ps H0 Hps)
    as [rs [Hl Hret]].
  { apply Hnz. lia. }
  { intros x Hx. unfold ps in Hx. apply in_map_iff in Hx.
    destruct Hx as [i [<- Hi]]. apply Hnz. apply in_seq in Hi. lia. }
  rewrite Hret.
  set (valid := map with_return (combine rest rs)).
  assert (Hlv : length valid = length rest).
  { unfold valid. rewrite length_map, length_combine, Hl. apply Nat.min_id. }
  assert (Hdates : map Date valid = map q_date rest).
  { unfold valid. rewrite map_map. cbn [Date ret_row_Row with_return r_date].
    rewrite <- (map_map fst q_date).
    rewrite map_fst_combine_eq by (symmetry; exact Hl). reflexivity. }
  assert (Hpr : map Price valid = map q_price rest).
  { unfold valid. rewrite map_map. cbn [Price ret_row_Row with_return r_price].
    rewrite <- (map_map fst q_price).
    rewrite map_fst_combine_eq by (symmetry; exact Hl). reflexivity. }
  rewrite (forecast_affine_rows _ valid (a + b) b k).
  - rewrite Hlv, Hdates. f_equal. apply map_ext. intros j.
    assert (Hlast : last (map q_date rest) 0%Z
                    = last (map q_date (q0 :: rest)) 0%Z).
    { destruct rest as [| q1 t]; [cbn in Hlen; lia | reflexivity]. }
    rewrite Hlast. f_equal. f_equal.
    change (S (length rest) + j)%nat with (S (length rest + j)).
    rewrite S_INR. ring.
  - cbn [filter has_null ret_row_Row r_price Return is_nan orb negb].
    apply (dropna_with_return rest ps rs Hps).
  - rewrite Hlv. lia.
  - exact Hk.
  - rewrite Hpr, Hlv, Hrest. apply map_ext. intros i.
    f_equal. rewrite S_INR. ring.
Qed.

Lemma forecast_after_returns_affine_witness :
  linear_regression_forecast
    (calculate_returns
       [ {| q_date := 100; q_price := Fin 10 |};
         {| q_date := 101; q_price := Fin 12 |};
         {| q_date := 102; q_price := Fin 14 |};
         {| q_date := 103; q_price := Fin 16 |};
         {| q_date := 104; q_price := Fin 18 |} ]) 2
  = Ok [ (105%Z, Fin 20); (106%Z, Fin 22) ].
Proof.
  etransitivity.
  - exact (forecast_after_returns_affine
             [ {| q_date := 100; q_price := Fin 10 |};
               {| q_date := 101; q_price := Fin 12 |};
               {| q_date := 102; q_price := Fin 14 |};
               {| q_date := 103; q_price := Fin 16 |};
               {| q_date := 104; q_price := Fin 18 |} ] 10 2 2
             ltac:(cbn; lia) ltac:(lia)
             ltac:(cbn; repeat f_equal; lra)
             ltac:(intros i _; pose proof (pos_INR i); lra)).
  - cbn. repeat f_equal; lra.
Defined.

End ScriptMore.
